(** * A shallow embedding of the worker package of space-sdk-ts

    The development follows the TypeScript sources of the worker package:
    [helpers.ts] (payload coercion, exception messages, error response
    schema), [route.ts] (the fluent [Route] builder, its OpenAPI operation
    and its express request handler) and [router.ts] (the [Router] registry
    and the OpenAPI generation).

    JavaScript values are an inductive type; objects are association lists
    in property order with at most one binding per key.  [Route] objects and
    their shared [RouteConfig] objects live in a store addressed by
    locations, because the builder hands the same configuration object to
    every route value it creates and stores route objects by reference in
    the registry of the router. *)

From Stdlib Require Import ZArith Lia.
From Stdlib Require Import SpecFloat.
From stdpp Require Import base option list strings.

Local Open Scope string_scope.
Local Open Scope list_scope.
Set Warnings "-register-all".

(** ** JavaScript values *)

(** Numbers are IEEE-754 binary64 values, in the representation of the
    specification of floating point numbers of the standard library. *)
Inductive JsValue : Type :=
| VUndefined
| VNull
| VBool (b : bool)
| VNum (n : spec_float)
| VStr (s : string)
| VArr (items : list JsValue)
| VObj (props : list (string * JsValue)).

(** An object: its own enumerable properties, in property order. *)
Abbreviation JsObject := (list (string * JsValue)).

(** What a [throw] carries when the code under study, or a built-in it
    calls, raises. *)
Inductive Exn : Type :=
| TypeError
| SyntaxError
| Error (message : string).

Inductive Result (A : Type) : Type :=
| Ok (a : A)
| Throw (e : Exn).
Arguments Ok {A} a.
Arguments Throw {A} e.

#[global] Instance Result_ret : MRet Result := fun A a => Ok a.
#[global] Instance Result_bind : MBind Result := fun A B f m =>
  match m with
  | Ok a => f a
  | Throw e => Throw e
  end.

(** *** Property maps *)

Section assoc.
Context {A : Type}.

(** [o[k]] for an own property. *)
Fixpoint obj_get (k : string) (o : list (string * A)) : option A :=
  match o with
  | [] => None
  | (k', v) :: rest => if String.eqb k' k then Some v else obj_get k rest
  end.

(** [o[k] = v]: an existing property keeps its place, a new one goes last. *)
Fixpoint obj_set (k : string) (v : A) (o : list (string * A)) : list (string * A) :=
  match o with
  | [] => [(k, v)]
  | (k', v') :: rest =>
      if String.eqb k' k then (k, v) :: rest else (k', v') :: obj_set k v rest
  end.

(** [delete o[k]]. *)
Definition obj_delete (k : string) (o : list (string * A)) : list (string * A) :=
  filter (fun kv => negb (String.eqb (fst kv) k)) o.

(** [Object.keys(o)], also the order of [for (const key in o)]. *)
Definition obj_keys (o : list (string * A)) : list string := map fst o.

(** [{...o, ...o'}]. *)
Definition obj_spread (o o' : list (string * A)) : list (string * A) :=
  fold_left (fun acc kv => obj_set (fst kv) (snd kv) acc) o' o.

End assoc.

(** *** Operators *)

(** [v.k] for a property name [k] that the source writes out, none of
    which names an inherited member.  Reading a property of [undefined] or
    [null] throws a [TypeError]; a plain object answers with its own
    property or [undefined]; every other value answers [undefined]. *)
Definition get_prop (v : JsValue) (k : string) : Result JsValue :=
  match v with
  | VUndefined | VNull => Throw TypeError
  | VObj o => Ok (default VUndefined (obj_get k o))
  | _ => Ok VUndefined
  end.

(** The names of the members of [Object.prototype], which every object
    inherits: functions, and the accessor [__proto__]. *)
Definition Object_prototype : list string :=
  ["constructor"; "__defineGetter__"; "__defineSetter__"; "hasOwnProperty";
   "__lookupGetter__"; "__lookupSetter__"; "isPrototypeOf"; "propertyIsEnumerable";
   "toString"; "valueOf"; "__proto__"; "toLocaleString"].

Definition inherited (key : string) : bool :=
  existsb (String.eqb key) Object_prototype.

(** What [v[key]] finds for a key that is computed at run time: an own
    property (or [undefined], when there is none), or a member that the
    value inherits from [Object.prototype], which is a function, and for
    [__proto__] the prototype itself. *)
Inductive Member : Type :=
| Own (v : JsValue)
| Inherited.

(** [v[key]].  It throws a [TypeError] on [undefined] and [null]; an own
    property of a plain object comes before an inherited member of the
    same name.  Booleans, numbers, strings and arrays inherit the members
    of [Object.prototype] too; what else their own prototypes hold, and
    the index properties of arrays and strings, are outside the model. *)
Definition get_member (v : JsValue) (key : string) : Result Member :=
  match v with
  | VUndefined | VNull => Throw TypeError
  | VObj o =>
      Ok match obj_get key o with
         | Some x => Own x
         | None => if inherited key then Inherited else Own VUndefined
         end
  | _ => Ok (if inherited key then Inherited else Own VUndefined)
  end.

(** [o[key] = v] on a plain object [o] for a key that is computed at run
    time.  Every member of [Object.prototype] is a writable data property,
    so that the assignment makes an own property, but [__proto__]: the
    setter of that accessor adds no own property; it replaces the
    prototype of [o] when [v] is an object or [null], which the own
    properties that stand for [o] do not show. *)
Definition obj_assign (key : string) (v : JsValue) (o : JsObject) : JsObject :=
  if String.eqb key "__proto__" then o else obj_set key v o.

(** ToBoolean. *)
Definition truthy (v : JsValue) : bool :=
  match v with
  | VUndefined | VNull => false
  | VBool b => b
  | VNum (S754_zero _) | VNum S754_nan => false
  | VNum _ => true
  | VStr s => negb (String.eqb s "")
  | VArr _ | VObj _ => true
  end.

(** [typeof v]. *)
Definition typeof (v : JsValue) : string :=
  match v with
  | VUndefined => "undefined"
  | VNull => "object"
  | VBool _ => "boolean"
  | VNum _ => "number"
  | VStr _ => "string"
  | VArr _ | VObj _ => "object"
  end.

(** [v === "s"] for a string literal [s]. *)
Definition is_str (v : JsValue) (s : string) : bool :=
  match v with
  | VStr t => String.eqb t s
  | _ => false
  end.

(** [v === undefined]. *)
Definition is_undefined (v : JsValue) : bool :=
  match v with
  | VUndefined => true
  | _ => false
  end.

(** ** helpers.ts *)

Section helpers.

(** The two built-ins the coercion calls.  [Number(v)] is total;
    [JSON.parse(v)] throws a [SyntaxError] on text that is not JSON. *)
Variable Number : JsValue -> spec_float.
Variable JSON_parse : JsValue -> Result JsValue.

(** The [switch (properties[key].type)] of [getPayloadFromParams]:
    [prop] is [properties[key]], [param] is [query[key]]. *)
Definition coerceParam (prop param : JsValue) : Result JsValue :=
  ty ← get_prop prop "type";
  if is_str ty "string" then Ok param
  else if is_str ty "boolean" then Ok (VBool (is_str param "true"))
  else if is_str ty "number" || is_str ty "integer" then Ok (VNum (Number param))
  else JSON_parse param.

(** The [for (const key in query)] loop, over the keys still to visit.
    [properties[key]] is truthy for an own property with a truthy value
    and for every inherited member; an inherited member has no property
    [type], so that its parameter goes to the [default] case. *)
Fixpoint forInQuery (properties : JsValue) (query : JsObject)
    (keys : list string) (payload : JsObject) : Result JsObject :=
  match keys with
  | [] => Ok payload
  | key :: rest =>
      member ← get_member properties key;
      let param := default VUndefined (obj_get key query) in
      match member with
      | Own prop =>
          if negb (truthy prop) then forInQuery properties query rest payload
          else
            v ← coerceParam prop param;
            forInQuery properties query rest (obj_assign key v payload)
      | Inherited =>
          v ← JSON_parse param;
          forInQuery properties query rest (obj_assign key v payload)
      end
  end.

Definition getPayloadFromParams (query : JsObject) (inputSchema : JsValue)
    : Result JsValue :=
  ty ← get_prop inputSchema "type";
  if is_undefined ty then Ok (VObj query)
  else
    additional ← get_prop inputSchema "additionalProperties";
    if truthy additional then Ok (VObj query)
    else
      properties ← get_prop inputSchema "properties";
      payload ← forInQuery properties query (obj_keys query) [];
      Ok (VObj payload).

End helpers.

(** [processException]: every [return] of the source returns a string. *)
Definition processException (e : JsValue) : Result JsValue :=
  if String.eqb (typeof e) "string" then Ok e
  else
    message ← get_prop e "message";
    if truthy message && String.eqb (typeof message) "string" then Ok message
    else Ok (VStr "Internal server error occured").

Definition getErrorResponseSchema : JsValue :=
  let schema :=
    VObj [("type", VStr "object");
          ("properties", VObj [
             ("message", VObj [("type", VStr "string")]);
             ("errors", VObj [
                ("type", VStr "array");
                ("items", VObj [
                   ("type", VStr "object");
                   ("properties", VObj [("message", VObj [("type", VStr "string")])]);
                   ("additionalProperties", VBool true)])])])] in
  VObj [("description", VStr "Standard error response object");
        ("content", VObj [("application/json", VObj [("schema", schema)])])].

(** [extractHeadersFromRequest]: the header values of express are strings,
    arrays of strings or [undefined]. *)
Definition extractHeadersFromRequest (reqHeaders : JsObject) : JsObject :=
  fold_left (fun headers kv =>
    match snd kv with
    | VStr _ => obj_set (fst kv) (snd kv) headers
    | VArr items => obj_set (fst kv) (default VUndefined (head items)) headers
    | _ => headers
    end) reqHeaders [].

(** ** The collaborators: zod, express, openapi3-ts *)

(** The outcome of [schema.safeParse(v)]: [{success: true, data}] or
    [{success: false, error}], of which the code reads [error.issues]. *)
Inductive SafeParseReturnType : Type :=
| ParseSuccess (data : JsValue)
| ParseFailure (issues : list JsValue).

(** A zod schema, as far as the package looks at it: [_def.typeName], the
    [safeParse] method, and the JSON Schema that [zodToJsonSchema] derives
    from it (with its [$schema] marker). *)
Record ZodType : Type := mkZodType {
  typeName : string;
  safeParse : JsValue -> SafeParseReturnType;
  zodToJsonSchema : JsObject
}.

(** zod reports a failed parse with at least one issue. *)
Definition zod_reports_issues (schema : ZodType) : Prop :=
  forall v issues, safeParse schema v = ParseFailure issues -> issues <> [].

(** zod's name of the type of a value, used in its issue messages. *)
Definition getParsedType (v : JsValue) : string :=
  match v with
  | VUndefined => "undefined"
  | VNull => "null"
  | VBool _ => "boolean"
  | VNum S754_nan => "nan"
  | VNum _ => "number"
  | VStr _ => "string"
  | VArr _ => "array"
  | VObj _ => "object"
  end.

Definition invalid_type_issue (expected : string) (path : list JsValue) (v : JsValue)
    : JsValue :=
  VObj [("code", VStr "invalid_type");
        ("expected", VStr expected);
        ("received", VStr (getParsedType v));
        ("path", VArr path);
        ("message", VStr (if is_undefined v then "Required"
                          else "Expected " +:+ expected +:+ ", received " +:+ getParsedType v))].

Definition draft07 : JsValue := VStr "http://json-schema.org/draft-07/schema#".

(** [z.null()]. *)
Definition z_null : ZodType :=
  {| typeName := "ZodNull";
     safeParse := fun v =>
       match v with
       | VNull => ParseSuccess VNull
       | _ => ParseFailure [invalid_type_issue "null" [] v]
       end;
     zodToJsonSchema := [("type", VStr "null"); ("$schema", draft07)] |}.

(** [z.any()]. *)
Definition z_any : ZodType :=
  {| typeName := "ZodAny";
     safeParse := fun v => ParseSuccess v;
     zodToJsonSchema := [("$schema", draft07)] |}.

(** [isZodTypeNull]: [inputZodType._def] of an absent schema throws. *)
Definition isZodTypeNull (inputZodType : option ZodType) : Result bool :=
  match inputZodType with
  | None => Throw TypeError
  | Some schema => Ok (String.eqb (typeName schema) "ZodNull")
  end.

(** An express request, as far as the dispatcher reads it. *)
Record Request : Type := mkRequest {
  req_body : JsValue;
  req_query : JsObject;
  req_headers : JsObject
}.

(** An express response: [statusCode] starts at 200, [sent] is the value
    handed to [res.json]. *)
Record Response : Type := mkResponse {
  statusCode : Z;
  sent : option JsValue
}.

Definition new_response : Response := {| statusCode := 200; sent := None |}.

Definition res_status (code : Z) (res : Response) : Response :=
  {| statusCode := code; sent := sent res |}.

Definition res_json (body : JsValue) (res : Response) : Response :=
  {| statusCode := statusCode res; sent := Some body |}.

(** context.ts: [new Context(req, res)]. *)
Record Context : Type := mkContext {
  rawRequest : Request;
  metadata : JsObject
}.

Definition new_Context (req : Request) : Context :=
  {| rawRequest := req; metadata := extractHeadersFromRequest (req_headers req) |}.

(** How the promise of a user handler settles; a handler that throws
    synchronously counts as rejected, as the [try]/[await] sees it. *)
Inductive Settled : Type :=
| Fulfilled (output : JsValue)
| Rejected (e : JsValue).

(** [Query<I, O>]: the callback the user registers. *)
Definition Query : Type := Context -> JsValue -> Settled.

(** The document of an [OpenApiBuilder], as far as the router writes it:
    [info.title], and [paths] from path to path item (method to operation). *)
Record OpenAPIObject : Type := mkOpenAPIObject {
  info_title : string;
  paths : list (string * JsObject)
}.

(** [OpenApiBuilder.create()]. *)
Definition OpenApiBuilder_create : OpenAPIObject :=
  {| info_title := "app"; paths := [] |}.

Definition addTitle (title : string) (doc : OpenAPIObject) : OpenAPIObject :=
  {| info_title := title; paths := paths doc |}.

(** [paths[path] = {...(paths[path] || {}), ...pathItem}]. *)
Definition addPath (path : string) (pathItem : JsObject) (doc : OpenAPIObject)
    : OpenAPIObject :=
  {| info_title := info_title doc;
     paths := obj_set path (obj_spread (default [] (obj_get path (paths doc))) pathItem)
                (paths doc) |}.

(** ** The store *)

Abbreviation loc := nat.

(** [interface RouteConfig], [jsonSchema] and [zodSchemas] flattened. *)
Record RouteConfig : Type := mkRouteConfig {
  opId : string;
  opType : string;
  method : string;
  url : string;
  jsonSchema_input : JsValue;
  jsonSchema_output : JsValue;
  zodSchemas_input : option ZodType;
  zodSchemas_output : option ZodType
}.

(** The fields of a [Route] object.  [config] is a reference: route values
    of one operation share one configuration object.  [updater] is the
    closure made by [Router._addRoute], which is determined by the index it
    captured. *)
Record RouteObject : Type := mkRouteObject {
  config : loc;
  updater : nat;
  handler : option Query
}.

Record RouterConfig : Type := mkRouterConfig {
  name : string;
  baseUrl : string
}.

(** The fields of a [Router].  A slot of [routes] is [None] when the array
    has no element there. *)
Record RouterObject : Type := mkRouterObject {
  router_config : RouterConfig;
  routes : list (option loc);
  openApiBuilder : OpenAPIObject
}.

Record World : Type := mkWorld {
  configs : list RouteConfig;
  instances : list RouteObject;
  router : RouterObject
}.

Definition set_configs (f : list RouteConfig -> list RouteConfig) (w : World) : World :=
  {| configs := f (configs w); instances := instances w; router := router w |}.

Definition set_instances (f : list RouteObject -> list RouteObject) (w : World) : World :=
  {| configs := configs w; instances := f (instances w); router := router w |}.

Definition set_routes (f : list (option loc) -> list (option loc)) (w : World) : World :=
  {| configs := configs w; instances := instances w;
     router := {| router_config := router_config (router w);
                  routes := f (routes (router w));
                  openApiBuilder := openApiBuilder (router w) |} |}.

Definition set_openApiBuilder (doc : OpenAPIObject) (w : World) : World :=
  {| configs := configs w; instances := instances w;
     router := {| router_config := router_config (router w);
                  routes := routes (router w);
                  openApiBuilder := doc |} |}.

(** [this.config] of the route object at [this]. *)
Definition config_of (w : World) (this : loc) : option RouteConfig :=
  r ← instances w !! this; configs w !! config r.

(** [this.handler]. *)
Definition handler_of (w : World) (this : loc) : option Query :=
  r ← instances w !! this; handler r.

(** [a[i] = x] on a JavaScript array: in range the element is replaced,
    out of range the array grows and the slots in between stay empty. *)
Definition array_store {A : Type} (i : nat) (x : A) (a : list (option A))
    : list (option A) :=
  if decide (i < length a) then <[i := Some x]> a
  else a ++ replicate (i - length a) None ++ [Some x].

(** The closure [r => { this.routes[index] = r; }] of [Router._addRoute]. *)
Definition routeUpdater (index : nat) (r : loc) (w : World) : World :=
  set_routes (array_store index r) w.

(** [new Router(config)] in an empty store. *)
Definition new_Router (cfg : RouterConfig) : World :=
  {| configs := []; instances := [];
     router := {| router_config := cfg; routes := [];
                  openApiBuilder := OpenApiBuilder_create |} |}.

(** Assignments to the fields of a configuration object. *)
Definition with_method (m : string) (cfg : RouteConfig) : RouteConfig :=
  {| opId := opId cfg; opType := opType cfg; method := m; url := url cfg;
     jsonSchema_input := jsonSchema_input cfg;
     jsonSchema_output := jsonSchema_output cfg;
     zodSchemas_input := zodSchemas_input cfg;
     zodSchemas_output := zodSchemas_output cfg |}.

Definition with_url (u : string) (cfg : RouteConfig) : RouteConfig :=
  {| opId := opId cfg; opType := opType cfg; method := method cfg; url := u;
     jsonSchema_input := jsonSchema_input cfg;
     jsonSchema_output := jsonSchema_output cfg;
     zodSchemas_input := zodSchemas_input cfg;
     zodSchemas_output := zodSchemas_output cfg |}.

Definition with_input (schema : ZodType) (json : JsValue) (cfg : RouteConfig)
    : RouteConfig :=
  {| opId := opId cfg; opType := opType cfg; method := method cfg; url := url cfg;
     jsonSchema_input := json;
     jsonSchema_output := jsonSchema_output cfg;
     zodSchemas_input := Some schema;
     zodSchemas_output := zodSchemas_output cfg |}.

Definition with_output (schema : ZodType) (json : JsValue) (cfg : RouteConfig)
    : RouteConfig :=
  {| opId := opId cfg; opType := opType cfg; method := method cfg; url := url cfg;
     jsonSchema_input := jsonSchema_input cfg;
     jsonSchema_output := json;
     zodSchemas_input := zodSchemas_input cfg;
     zodSchemas_output := Some schema |}.

(** A new route object over an existing configuration, without handler. *)
Definition new_Route (cfg : loc) (upd : nat) : RouteObject :=
  {| config := cfg; updater := upd; handler := None |}.

(** ** route.ts *)

(** What [app.get(url, handler)] and its siblings record: the verb, the
    path, and the handler closure, which captured [this] and the two
    constants computed when the route was installed. *)
Record Registration : Type := mkRegistration {
  reg_verb : string;
  reg_path : string;
  reg_this : loc;
  isBodyPresent : bool;
  isRequestPayloadPresent : bool
}.

(** What one run of a request handler does: the response object it leaves,
    the calls of the user handler it made, and how its promise settles. *)
Record Dispatch : Type := mkDispatch {
  response : Response;
  handler_calls : list (Context * JsValue);
  completion : Result unit
}.

Module Route.

(** [_getOpenAPIOperation], on the configuration that [this.config] holds. *)
Definition _getOpenAPIOperation (cfg : RouteConfig)
    : Result (string * string * JsValue) :=
  isRequestNull ← isZodTypeNull (zodSchemas_input cfg);
  let requestBodyObject :=
    if negb isRequestNull
    then VObj [("description", VStr ("Request object for " +:+ opId cfg));
               ("content", VObj [("application/json",
                                  VObj [("schema", jsonSchema_input cfg)])]);
               ("required", VBool true)]
    else VObj [("description", VStr ("Request object for " +:+ opId cfg));
               ("content", VObj []);
               ("required", VBool false)] in
  isResponseNull ← isZodTypeNull (zodSchemas_output cfg);
  let successResponseStatusCode := if (isResponseNull : bool) then "204" else "200" in
  let successResponseObject :=
    if negb isResponseNull
    then VObj [("description", VStr ("Success response object for " +:+ opId cfg));
               ("content", VObj [("application/json",
                                  VObj [("schema", jsonSchema_output cfg)])])]
    else VObj [("description", VStr ("Success response object for " +:+ opId cfg))] in
  let operation :=
    VObj [("operationId", VStr (opId cfg));
          ("requestBody", requestBodyObject);
          ("responses", VObj [(successResponseStatusCode, successResponseObject);
                              ("400", getErrorResponseSchema);
                              ("500", getErrorResponseSchema)]);
          ("x-request-op-type", VStr (opType cfg))] in
  Ok (url cfg, method cfg, operation).

(** [addRoute]: the part that runs when the route is installed. *)
Definition addRoute (this : loc) (w : World) (app : list Registration)
    : Result (list Registration) :=
  match config_of w this with
  | None => Throw TypeError
  | Some cfg =>
      let isBodyPresent :=
        String.eqb (method cfg) "post" || String.eqb (method cfg) "put" in
      isRequestNull ← isZodTypeNull (zodSchemas_input cfg);
      let verb :=
        if String.eqb (method cfg) "get" then "get"
        else if String.eqb (method cfg) "delete" then "delete"
        else if String.eqb (method cfg) "put" then "put"
        else "post" in
      Ok (app ++ [{| reg_verb := verb; reg_path := url cfg; reg_this := this;
                     isBodyPresent := isBodyPresent;
                     isRequestPayloadPresent := negb isRequestNull |}])
  end.

Section handler.
Variable Number : JsValue -> spec_float.
Variable JSON_parse : JsValue -> Result JsValue.

(** The payload of a request: [null] by default, the body, or the coerced
    query parameters. *)
Definition extractPayload (reg : Registration) (cfg : RouteConfig) (req : Request)
    : Result JsValue :=
  if isRequestPayloadPresent reg then
    if isBodyPresent reg then Ok (req_body req)
    else getPayloadFromParams Number JSON_parse (req_query req) (jsonSchema_input cfg)
  else Ok VNull.

(** The [try]/[catch] around the user handler. *)
Definition invokeHandler (h : Query) (req : Request) (payload : JsValue) : Dispatch :=
  let ctx := new_Context req in
  match h ctx payload with
  | Fulfilled output =>
      {| response := res_json output new_response;
         handler_calls := [(ctx, payload)];
         completion := Ok () |}
  | Rejected e =>
      let res := res_status 500 new_response in
      match processException e with
      | Ok message =>
          {| response := res_json (VObj [("message", message)]) res;
             handler_calls := [(ctx, payload)];
             completion := Ok () |}
      | Throw t =>
          {| response := res; handler_calls := [(ctx, payload)]; completion := Throw t |}
      end
  end.

(** The request handler that [addRoute] registers, run in the store as it
    is when the request arrives. *)
Definition requestHandler (reg : Registration) (w : World) (req : Request) : Dispatch :=
  let rejected e :=
    {| response := new_response; handler_calls := []; completion := Throw e |} in
  match instances w !! reg_this reg with
  | None => rejected TypeError
  | Some this =>
      match handler this with
      | None => rejected (Error "Validator and query are not defined")
      | Some h =>
          match configs w !! config this with
          | None => rejected TypeError
          | Some cfg =>
              match extractPayload reg cfg req with
              | Throw e => rejected e
              | Ok payload =>
                  match (fun schema => safeParse schema payload) <$> zodSchemas_input cfg with
                  | Some (ParseSuccess _) => invokeHandler h req payload
                  | Some (ParseFailure issues) =>
                      {| response :=
                           res_json (VObj [("message", VStr "Invalid request payload sent");
                                           ("errors", VArr issues)])
                             (res_status 400 new_response);
                         handler_calls := [];
                         completion := Ok () |}
                  | None =>
                      {| response :=
                           res_json (VObj [("message", VStr "Invalid request payload sent");
                                           ("errors", VUndefined)])
                             (res_status 400 new_response);
                         handler_calls := [];
                         completion := Ok () |}
                  end
              end
          end
      end
  end.

End handler.

(** [fn]: the handler goes into the route object the call is made on. *)
Definition fn (handlerFn : Query) (this : loc) (w : World) : option (loc * World) :=
  r ← instances w !! this;
  Some (this, set_instances
                (<[this := {| config := config r; updater := updater r;
                              handler := Some handlerFn |}]>) w).

(** [input]: the shared configuration is updated, then a new route object
    with the same configuration and updater, and no handler, is made and
    handed to the updater. *)
Definition input (schema : ZodType) (this : loc) (w : World) : option (loc * World) :=
  r ← instances w !! this;
  cfg ← configs w !! config r;
  let json := VObj (obj_delete "$schema" (zodToJsonSchema schema)) in
  let w1 := set_configs (<[config r := with_input schema json cfg]>) w in
  let r' := length (instances w1) in
  let w2 := set_instances (fun l => l ++ [new_Route (config r) (updater r)]) w1 in
  Some (r', routeUpdater (updater r) r' w2).

(** [output]: as [input], for the output schema. *)
Definition output (schema : ZodType) (this : loc) (w : World) : option (loc * World) :=
  r ← instances w !! this;
  cfg ← configs w !! config r;
  let json := VObj (obj_delete "$schema" (zodToJsonSchema schema)) in
  let w1 := set_configs (<[config r := with_output schema json cfg]>) w in
  let r' := length (instances w1) in
  let w2 := set_instances (fun l => l ++ [new_Route (config r) (updater r)]) w1 in
  Some (r', routeUpdater (updater r) r' w2).

(** [method] and [url] write the shared configuration and return [this]. *)
Definition method (m : string) (this : loc) (w : World) : option (loc * World) :=
  r ← instances w !! this;
  cfg ← configs w !! config r;
  Some (this, set_configs (<[config r := with_method m cfg]>) w).

Definition url (u : string) (this : loc) (w : World) : option (loc * World) :=
  r ← instances w !! this;
  cfg ← configs w !! config r;
  Some (this, set_configs (<[config r := with_url u cfg]>) w).

End Route.

(** ** router.ts *)

(** What a handler registered on the express application does: it answers
    with a status and a JSON body, it serves the text of the OpenAPI
    document under a content type, or it is the request handler of an
    operation. *)
Inductive EndpointHandler : Type :=
| HJson (status : Z) (body : JsValue)
| HSpec (contentType : string) (doc : OpenAPIObject)
| HOperation (reg : Registration).

(** One [app.get], [app.post], ... or [app.all] call, in the order of the
    calls. *)
Record Endpoint : Type := mkEndpoint {
  ep_verb : string;
  ep_path : string;
  ep_handler : EndpointHandler
}.

Definition operation_endpoint (reg : Registration) : Endpoint :=
  {| ep_verb := reg_verb reg; ep_path := reg_path reg; ep_handler := HOperation reg |}.

Module Router.

(** [_addRoute]: the configuration literal and the route object are
    allocated, the updater captures the length of the registry, and the
    registry is replaced by its copy with the route appended. *)
Definition _addRoute (cfg : RouteConfig) (w : World) : loc * World :=
  let index := length (routes (router w)) in
  let c := length (configs w) in
  let route := length (instances w) in
  let w1 := set_configs (fun l => l ++ [cfg]) w in
  let w2 := set_instances (fun l => l ++ [new_Route c index]) w1 in
  (route, set_routes (fun l => l ++ [Some route]) w2).

Definition query (opId : string) (w : World) : loc * World :=
  _addRoute
    {| opId := opId; opType := "query"; method := "get";
       url := baseUrl (router_config (router w)) +:+ "/" +:+ opId;
       jsonSchema_input := VObj [("type", VStr "null")];
       jsonSchema_output := VObj [];
       zodSchemas_input := Some z_null;
       zodSchemas_output := Some z_any |} w.

Definition mutation (opId : string) (w : World) : loc * World :=
  _addRoute
    {| opId := opId; opType := "mutation"; method := "post";
       url := baseUrl (router_config (router w)) +:+ "/" +:+ opId;
       jsonSchema_input := VObj [];
       jsonSchema_output := VObj [("type", VStr "null")];
       zodSchemas_input := Some z_any;
       zodSchemas_output := Some z_null |} w.

(** The body of [this.routes.forEach] in [_generateOpenApi]; [forEach]
    skips the slots that hold no element. *)
Definition addRoutePath (w : World) (doc : OpenAPIObject) (slot : option loc)
    : Result OpenAPIObject :=
  match slot with
  | None => Ok doc
  | Some route =>
      match config_of w route with
      | None => Throw TypeError
      | Some cfg =>
          '(path, method, operation) ← Route._getOpenAPIOperation cfg;
          Ok (addPath path [(method, operation)] doc)
      end
  end.

Fixpoint forEachRoute (w : World) (slots : list (option loc)) (doc : OpenAPIObject)
    : Result OpenAPIObject :=
  match slots with
  | [] => Ok doc
  | slot :: rest => doc' ← addRoutePath w doc slot; forEachRoute w rest doc'
  end.

(** [_generateOpenApi] writes the builder of the router.  A throw aborts
    the start of the server, the store is then not looked at again. *)
Definition _generateOpenApi (w : World) : Result World :=
  let titled := addTitle (name (router_config (router w))) (openApiBuilder (router w)) in
  doc ← forEachRoute w (routes (router w)) titled;
  Ok (set_openApiBuilder doc w).

Definition _getOpenApiSpec (w : World) : OpenAPIObject := openApiBuilder (router w).

(** [this.routes.forEach(route => route.addRoute(app))] of
    [_initialiseRoutes]. *)
Fixpoint addRoutes (w : World) (slots : list (option loc)) (app : list Registration)
    : Result (list Registration) :=
  match slots with
  | [] => Ok app
  | None :: rest => addRoutes w rest app
  | Some route :: rest => app' ← Route.addRoute route w app; addRoutes w rest app'
  end.

Definition _getRoutes (w : World) : list (option loc) := routes (router w).

(** [_initialiseRoutes]: the two texts of the document are taken from the
    builder first, then the endpoints are registered: the document in its
    two formats, every route of the registry, and the route that catches
    what is left. *)
Definition _initialiseRoutes (w : World) (app : list Endpoint) : Result (list Endpoint) :=
  let jsonSpec := openApiBuilder (router w) in
  let yamlSpec := openApiBuilder (router w) in
  let prefix := baseUrl (router_config (router w)) in
  let app1 :=
    app ++ [{| ep_verb := "get"; ep_path := prefix +:+ "/openapi.json";
               ep_handler := HSpec "application/json" jsonSpec |};
            {| ep_verb := "get"; ep_path := prefix +:+ "/openapi.yaml";
               ep_handler := HSpec "application/yaml" yamlSpec |}] in
  regs ← addRoutes w (routes (router w)) [];
  Ok (app1 ++ (operation_endpoint <$> regs)
           ++ [{| ep_verb := "all"; ep_path := "*";
                  ep_handler := HJson 400 (VObj [("message", VStr "No route found")]) |}]).

End Router.

(** ** server.ts *)

Module Server.

(** [interface ServerConfig]: [port] and [baseUrl] are optional. *)
Record ServerConfig : Type := mkServerConfig {
  name : string;
  port : option spec_float;
  baseUrl : option string
}.

(** The fields of a [Server]: the configuration with its defaults filled
    in, the router (with the store its routes live in) and what has been
    registered on the express application. *)
Record ServerObject : Type := mkServerObject {
  config : ServerConfig;
  routerObj : World;
  middleware : list string;
  app : list Endpoint;
  listening : option spec_float
}.

(** [if (!config.baseUrl) config.baseUrl = "/v1"]. *)
Definition resolved_baseUrl (cfg : ServerConfig) : string :=
  match baseUrl cfg with
  | Some b => if truthy (VStr b) then b else "/v1"
  | None => "/v1"
  end.

(** [if (!config.port) config.port = 3000]. *)
Definition resolved_port (cfg : ServerConfig) : spec_float :=
  match port cfg with
  | Some p => if truthy (VNum p) then p else binary_normalize 53 1024 3000 0 false
  | None => binary_normalize 53 1024 3000 0 false
  end.

Definition constructor (cfg : ServerConfig) : ServerObject :=
  let cfg' := {| name := name cfg;
                 port := Some (resolved_port cfg);
                 baseUrl := Some (resolved_baseUrl cfg) |} in
  {| config := cfg';
     routerObj := new_Router (mkRouterConfig (name cfg) (resolved_baseUrl cfg));
     middleware := [];
     app := [];
     listening := None |}.

Definition create (cfg : ServerConfig) : ServerObject := constructor cfg.

Definition router (s : ServerObject) : World := routerObj s.

(** The start-up script of the program works on the router of the server. *)
Definition with_router (w : World) (s : ServerObject) : ServerObject :=
  {| config := config s; routerObj := w; middleware := middleware s;
     app := app s; listening := listening s |}.

(** [start]: the JSON body parser, the [/info] route, the routes of the
    router, and the listening port. *)
Definition start (s : ServerObject) : Result ServerObject :=
  let info := {| ep_verb := "get"; ep_path := "/info";
                 ep_handler := HJson 200 (VObj [("name", VStr (name (config s)))]) |} in
  app' ← Router._initialiseRoutes (routerObj s) (app s ++ [info]);
  Ok {| config := config s; routerObj := routerObj s;
        middleware := middleware s ++ ["express.json"];
        app := app';
        listening := port (config s) |}.

End Server.

(** ** Builder programs *)

(** One call of the fluent interface on a route value. *)
Inductive Call : Type :=
| CallMethod (m : string)
| CallUrl (u : string)
| CallInput (schema : ZodType)
| CallOutput (schema : ZodType)
| CallFn (handlerFn : Query).

Definition call (c : Call) (this : loc) (w : World) : option (loc * World) :=
  match c with
  | CallMethod m => Route.method m this w
  | CallUrl u => Route.url u this w
  | CallInput schema => Route.input schema this w
  | CallOutput schema => Route.output schema this w
  | CallFn handlerFn => Route.fn handlerFn this w
  end.

(** A chain [this.c1(..).c2(..)...]: each call is made on the route value
    the call before it returned. *)
Fixpoint chain (calls : list Call) (this : loc) (w : World) : option (loc * World) :=
  match calls with
  | [] => Some (this, w)
  | c :: rest => '(this', w') ← call c this w; chain rest this' w'
  end.

(** A statement of a start-up script: a registration on the router, or a
    call on a route value the script holds, which may be a value that an
    earlier refinement has replaced in the registry. *)
Inductive Stmt : Type :=
| SQuery (opId : string)
| SMutation (opId : string)
| SCall (this : loc) (c : Call).

Definition exec (s : Stmt) (w : World) : option World :=
  match s with
  | SQuery opId => Some (snd (Router.query opId w))
  | SMutation opId => Some (snd (Router.mutation opId w))
  | SCall this c => snd <$> call c this w
  end.

Fixpoint run (script : list Stmt) (w : World) : option World :=
  match script with
  | [] => Some w
  | s :: rest => w' ← exec s w; run rest w'
  end.

Definition is_registration (s : Stmt) : bool :=
  match s with
  | SQuery _ | SMutation _ => true
  | SCall _ _ => false
  end.

Definition is_refinement (c : Call) : bool :=
  match c with
  | CallInput _ | CallOutput _ => true
  | _ => false
  end.

Definition is_input (c : Call) : bool :=
  match c with CallInput _ => true | _ => false end.

Definition is_output (c : Call) : bool :=
  match c with CallOutput _ => true | _ => false end.

Definition is_url (c : Call) : bool :=
  match c with CallUrl _ => true | _ => false end.

Definition is_method (c : Call) : bool :=
  match c with CallMethod _ => true | _ => false end.

Definition is_fn (c : Call) : bool :=
  match c with CallFn _ => true | _ => false end.

(** What a call does to the configuration object. *)
Definition call_config (c : Call) (cfg : RouteConfig) : RouteConfig :=
  match c with
  | CallMethod m => with_method m cfg
  | CallUrl u => with_url u cfg
  | CallInput schema =>
      with_input schema (VObj (obj_delete "$schema" (zodToJsonSchema schema))) cfg
  | CallOutput schema =>
      with_output schema (VObj (obj_delete "$schema" (zodToJsonSchema schema))) cfg
  | CallFn _ => cfg
  end.

(** What a call does to the handler of the route value the chain holds. *)
Definition call_handler (c : Call) (h : option Query) : option Query :=
  match c with
  | CallFn handlerFn => Some handlerFn
  | CallInput _ | CallOutput _ => None
  | CallMethod _ | CallUrl _ => h
  end.

Definition chain_config (calls : list Call) (cfg : RouteConfig) : RouteConfig :=
  fold_left (fun acc c => call_config c acc) calls cfg.

Definition chain_handler (calls : list Call) (h : option Query) : option Query :=
  fold_left (fun acc c => call_handler c acc) calls h.

(** The route value that was made last for the registry slot [index]: the
    store allocates route objects in the order in which they are made. *)
Fixpoint latest_from (base : loc) (index : nat) (l : list RouteObject) : option loc :=
  match l with
  | [] => None
  | r :: rest =>
      match latest_from (S base) index rest with
      | Some x => Some x
      | None => if decide (updater r = index) then Some base else None
      end
  end.

Definition latest_route (index : nat) (w : World) : option loc :=
  latest_from 0 index (instances w).

(** What the registry of a router satisfies at every point of a start-up
    script: every slot holds the route value made last for it, every route
    object refers to a slot and to a configuration object, and every
    configuration has both schemas. *)
Record registry_inv (w : World) : Prop := mk_registry_inv {
  inv_slots : forall i, i < length (routes (router w)) ->
    exists l, routes (router w) !! i = Some (Some l) /\ latest_route i w = Some l;
  inv_instances : forall l r, instances w !! l = Some r ->
    updater r < length (routes (router w)) /\ config r < length (configs w);
  inv_schemas : forall c cfg, configs w !! c = Some cfg ->
    is_Some (zodSchemas_input cfg) /\ is_Some (zodSchemas_output cfg)
}.

(** Route values of one operation share one configuration object: the
    router makes one configuration per registry slot, and every route
    object carries the configuration of the slot its updater writes. *)
Record sharing_inv (w : World) : Prop := mk_sharing_inv {
  inv_lengths : length (configs w) = length (routes (router w));
  inv_shared : forall l r, instances w !! l = Some r -> config r = updater r
}.

(** The endpoint that [addRoute] installs for the route value of a
    registry slot. *)
Definition installs (w : World) (slot : option loc) (ep : Endpoint) : Prop :=
  exists l cfg reg,
    slot = Some l /\ config_of w l = Some cfg
    /\ Route.addRoute l w [] = Ok [reg]
    /\ reg_this reg = l
    /\ ep = operation_endpoint reg /\ ep_path ep = url cfg.

(** A JSON Schema as the route configuration holds it: an object without
    the [$schema] marker. *)
Definition unmarked_schema (v : JsValue) : Prop :=
  exists o, v = VObj o /\ obj_get "$schema" o = None.

(** What the header value [value] contributes to the metadata. *)
Definition header_value (value : JsValue) : option JsValue :=
  match value with
  | VStr _ => Some value
  | VArr items => Some (default VUndefined (head items))
  | _ => None
  end.

(** ** The OpenAPI document as a store of operations *)

(** What [addPath(path, { [method]: operation })] does to [paths]. *)
Definition put_operation (key : string * string) (operation : JsValue)
    (paths : list (string * JsObject)) : list (string * JsObject) :=
  obj_set (fst key)
    (obj_spread (default [] (obj_get (fst key) paths)) [(snd key, operation)]) paths.

Definition has_operation (key : string * string) (paths : list (string * JsObject))
    : Prop :=
  exists item, obj_get (fst key) paths = Some item /\ is_Some (obj_get (snd key) item).

(** The operation that the document holds for a path and a method. *)
Definition get_operation (key : string * string) (paths : list (string * JsObject))
    : option JsValue :=
  obj_get (fst key) paths ≫= obj_get (snd key).


(** A sequence of writes to a store, run from left to right. *)
Definition replay {K V St : Type} (put : K -> V -> St -> St) (ops : list (K * V))
    (s : St) : St :=
  fold_left (fun acc kv => put (fst kv) (snd kv) acc) ops s.

(** The operations that one run over the registry adds, in order. *)
Fixpoint operations (w : World) (slots : list (option loc))
    : Result (list (string * string * JsValue)) :=
  match slots with
  | [] => Ok []
  | None :: rest => operations w rest
  | Some route :: rest =>
      match config_of w route with
      | None => Throw TypeError
      | Some cfg =>
          '(path, method, operation) ← Route._getOpenAPIOperation cfg;
          ops ← operations w rest;
          Ok ((path, method, operation) :: ops)
      end
  end.

(** The success response of an operation: its description, and the JSON
    body schema unless the output schema is [z.null()]. *)
Definition success_response (cfg : RouteConfig) (isResponseNull : bool) : JsValue :=
  if isResponseNull
  then VObj [("description", VStr ("Success response object for " +:+ opId cfg))]
  else VObj [("description", VStr ("Success response object for " +:+ opId cfg));
             ("content", VObj [("application/json",
                                VObj [("schema", jsonSchema_output cfg)])])].

(** The request body of an operation: not required and without content
    when the input schema is [z.null()]. *)
Definition request_body (cfg : RouteConfig) (isRequestNull : bool) : JsValue :=
  if isRequestNull
  then VObj [("description", VStr ("Request object for " +:+ opId cfg));
             ("content", VObj []);
             ("required", VBool false)]
  else VObj [("description", VStr ("Request object for " +:+ opId cfg));
             ("content", VObj [("application/json",
                                VObj [("schema", jsonSchema_input cfg)])]);
             ("required", VBool true)].

(** ** The payload coercion in the words of the specification *)

Section coercion_spec.
Variable Number : JsValue -> spec_float.
Variable JSON_parse : JsValue -> Result JsValue.



End coercion_spec.



(** The message of a 500 response for a failure value that is neither
    [null] nor [undefined]. *)
Definition derived_message (e : JsValue) : JsValue :=
  match e with
  | VStr _ => e
  | VObj o =>
      match obj_get "message" o with
      | Some (VStr m) =>
          if String.eqb m "" then VStr "Internal server error occured" else VStr m
      | _ => VStr "Internal server error occured"
      end
  | _ => VStr "Internal server error occured"
  end.

(** ** Data for the examples *)

Module Examples.

Definition server_config : RouterConfig := {| name := "myServer"; baseUrl := "/v1" |}.

(** The number that a string of decimal digits denotes. *)
Fixpoint digits_value (acc : N) (s : string) : option N :=
  match s with
  | EmptyString => Some acc
  | String c rest =>
      let d := Ascii.N_of_ascii c in
      if ((48 <=? d) && (d <=? 57))%N then digits_value (acc * 10 + (d - 48)) rest
      else None
  end.

(** An instance of [Number] for the examples: it agrees with the built-in
    on non-empty strings of decimal digits and answers [NaN] elsewhere. *)
Definition digits_Number (v : JsValue) : spec_float :=
  match v with
  | VStr (String c rest) =>
      match digits_value 0 (String c rest) with
      | Some n => binary_normalize 53 1024 (Z.of_N n) 0 false
      | None => S754_nan
      end
  | _ => S754_nan
  end.

(** An instance of [JSON.parse] for the examples.  It agrees with the
    built-in on the literals [true], [false] and [null] and on strings of
    decimal digits: [0] and the strings that do not start with [0] are
    numbers, the others are no JSON text.  It throws on every other value,
    as the built-in does on words such as [abc] and [yes]; the JSON texts
    with signs, fractions, exponents, quotes, brackets or white space are
    not covered. *)
Definition literal_JSON_parse (v : JsValue) : Result JsValue :=
  match v with
  | VStr "true" => Ok (VBool true)
  | VStr "false" => Ok (VBool false)
  | VStr "null" => Ok VNull
  | VStr (String c rest) =>
      if (Ascii.N_of_ascii c =? 48)%N && negb (String.eqb rest "") then Throw SyntaxError
      else
        match digits_value 0 (String c rest) with
        | Some n => Ok (VNum (binary_normalize 53 1024 (Z.of_N n) 0 false))
        | None => Throw SyntaxError
        end
  | _ => Throw SyntaxError
  end.

(** [z.object({ name: z.string() })]. *)
Definition z_named : ZodType :=
  {| typeName := "ZodObject";
     safeParse := fun v =>
       match v with
       | VObj o =>
           match obj_get "name" o with
           | Some (VStr n) => ParseSuccess (VObj [("name", VStr n)])
           | Some other => ParseFailure [invalid_type_issue "string" [VStr "name"] other]
           | None => ParseFailure [invalid_type_issue "string" [VStr "name"] VUndefined]
           end
       | _ => ParseFailure [invalid_type_issue "object" [] v]
       end;
     zodToJsonSchema :=
       [("type", VStr "object");
        ("properties", VObj [("name", VObj [("type", VStr "string")])]);
        ("required", VArr [VStr "name"]);
        ("additionalProperties", VBool false);
        ("$schema", draft07)] |}.

(** [z.string()]. *)
Definition z_string : ZodType :=
  {| typeName := "ZodString";
     safeParse := fun v =>
       match v with
       | VStr _ => ParseSuccess v
       | _ => ParseFailure [invalid_type_issue "string" [] v]
       end;
     zodToJsonSchema := [("type", VStr "string"); ("$schema", draft07)] |}.

(** [async (_ctx, req) => ({ greeting: "Hi" })]. *)
Definition greet : Query := fun _ _ => Fulfilled (VObj [("greeting", VStr "Hi")]).

(** Handlers that throw a given value. *)
Definition throws (e : JsValue) : Query := fun _ _ => Rejected e.

(** [reg(opId)] followed by a chain of calls on the route it returns, in
    the store of a new router; the route value at the end of the chain. *)
Definition built (reg : string -> World -> loc * World) (opId : string)
    (calls : list Call) : loc * World :=
  let '(r, w) := reg opId (new_Router server_config) in
  default (r, w) (chain calls r w).

(** The handler registration of a route, as [addRoute] makes it. *)
Definition installed (rw : loc * World) : Registration :=
  match Route.addRoute (fst rw) (snd rw) [] with
  | Ok [reg] => reg
  | _ => {| reg_verb := ""; reg_path := ""; reg_this := fst rw;
            isBodyPresent := false; isRequestPayloadPresent := false |}
  end.

Definition request (body : JsValue) (query : JsObject) : Request :=
  {| req_body := body; req_query := query; req_headers := [] |}.

(** The configuration object of a route value. *)
Definition configured (rw : loc * World) : RouteConfig :=
  default {| opId := ""; opType := ""; method := ""; url := "";
             jsonSchema_input := VUndefined; jsonSchema_output := VUndefined;
             zodSchemas_input := None; zodSchemas_output := None |}
          (config_of (snd rw) (fst rw)).

(** [Number.isInteger]. *)
Definition isInteger (n : spec_float) : bool :=
  match n with
  | S754_zero _ => true
  | S754_finite _ m e => (0 <=? e)%Z || (Z.pos m mod 2 ^ (- e) =? 0)%Z
  | S754_infinity _ | S754_nan => false
  end.

(** The issues that [z.number().int()] reports for the value at a path:
    a value that is no number, and [NaN], have the wrong type; a number
    that is no integer, [Infinity] too, is a float. *)
Definition int_issues (path : list JsValue) (v : JsValue) : list JsValue :=
  match v with
  | VNum S754_nan => [invalid_type_issue "number" path v]
  | VNum n =>
      if isInteger n then []
      else [VObj [("code", VStr "invalid_type");
                  ("expected", VStr "integer");
                  ("received", VStr "float");
                  ("message", VStr "Expected integer, received float");
                  ("path", VArr path)]]
  | _ => [invalid_type_issue "number" path v]
  end.

(** The issues that [z.boolean()] reports for the value at a path. *)
Definition boolean_issues (path : list JsValue) (v : JsValue) : list JsValue :=
  match v with
  | VBool _ => []
  | _ => [invalid_type_issue "boolean" path v]
  end.

(** [z.object({ count: z.number().int(), flag: z.boolean() })]: the
    issues of both properties are reported, and the properties that the
    schema does not know are left out of the parsed value. *)
Definition z_counted : ZodType :=
  {| typeName := "ZodObject";
     safeParse := fun v =>
       match v with
       | VObj o =>
           let count := default VUndefined (obj_get "count" o) in
           let flag := default VUndefined (obj_get "flag" o) in
           match int_issues [VStr "count"] count ++ boolean_issues [VStr "flag"] flag with
           | [] => ParseSuccess (VObj [("count", count); ("flag", flag)])
           | issues => ParseFailure issues
           end
       | _ => ParseFailure [invalid_type_issue "object" [] v]
       end;
     zodToJsonSchema :=
       [("type", VStr "object");
        ("properties", VObj [("count", VObj [("type", VStr "integer")]);
                             ("flag", VObj [("type", VStr "boolean")])]);
        ("required", VArr [VStr "count"; VStr "flag"]);
        ("additionalProperties", VBool false);
        ("$schema", draft07)] |}.

(** [router.mutation("addTodo").input(..).fn(..)], with a handler that
    returns and with handlers that throw. *)
Definition addTodo : loc * World :=
  built Router.mutation "addTodo" [CallInput z_named; CallFn greet].

Definition addTodo_throwing (e : JsValue) : loc * World :=
  built Router.mutation "addTodo" [CallInput z_named; CallFn (throws e)].

(** [router.query("find").input(..).fn(..)] over an object schema. *)
Definition find : loc * World :=
  built Router.query "find" [CallInput z_counted; CallFn greet].

(** [router.query("search").input(z.string()).fn(..)]. *)
Definition search : loc * World :=
  built Router.query "search" [CallInput z_string; CallFn greet].

(** [router.query("ping").fn(..)]. *)
Definition ping : loc * World := built Router.query "ping" [CallFn greet].

(** [router.query("operate").fn(..).url("/greet")]. *)
Definition moved : loc * World :=
  built Router.query "operate" [CallFn greet; CallUrl "/greet"].

(** [router.query("operate").fn(..).input(..)]. *)
Definition refined_late : loc * World :=
  built Router.query "operate" [CallFn greet; CallInput z_named].

(** A start-up script: two registrations, refinements of both, handlers. *)
Definition startup : list Stmt :=
  [SQuery "operate"; SMutation "addTodo";
   SCall 0 (CallInput z_named); SCall 1 (CallInput z_named);
   SCall 2 (CallOutput z_any); SCall 3 (CallFn greet); SCall 4 (CallFn greet)].

(** The store after the start-up script. *)
Definition started : World :=
  default (new_Router server_config) (run startup (new_Router server_config)).

(** One route whose URL was set to [/b] before any generation. *)
Definition relocated : World :=
  snd (built Router.query "op" [CallUrl "/b"]).

(** The same registry, reached by [_generateOpenApi()] followed by
    [route.url("/b")]. *)
Definition relocated_late : World :=
  match Router._generateOpenApi (snd (built Router.query "op" [])) with
  | Ok w => default w (snd <$> Route.url "/b" 0 w)
  | Throw _ => new_Router server_config
  end.

(** The document after one more generation. *)
Definition generated (w : World) : option OpenAPIObject :=
  match Router._generateOpenApi w with
  | Ok w' => Some (Router._getOpenApiSpec w')
  | Throw _ => None
  end.

(** A request with a single-valued header, a header with two values, a
    header with no value and a header that is not defined. *)
Definition with_headers : Request :=
  {| req_body := VUndefined; req_query := [];
     req_headers := [("host", VStr "localhost");
                     ("accept", VArr [VStr "text/html"; VStr "text/plain"]);
                     ("x-empty", VArr []);
                     ("x-none", VUndefined)] |}.

(** [router.query("operate").method("GET").input(..).fn(..)], the method
    in capitals. *)
Definition shouted : loc * World :=
  built Router.query "operate" [CallMethod "GET"; CallInput z_named; CallFn greet].

(** [Server.create({ name: "myServer", baseUrl: "" })]. *)
Definition server : Server.ServerConfig :=
  Server.mkServerConfig "myServer" None (Some "").

(** The store of the router of that server after the start-up script. *)
Definition server_started : World :=
  default (Server.router (Server.create server))
          (run startup (Server.router (Server.create server))).

End Examples.

(** * Properties *)

(** ** The request handler *)

Section dispatch.
Variable Number : JsValue -> spec_float.
Variable JSON_parse : JsValue -> Result JsValue.

#[local] Abbreviation requestHandler := (Route.requestHandler Number JSON_parse).
#[local] Abbreviation extractPayload := (Route.extractPayload Number JSON_parse).

(** A request reaches validation when the route object of the registration
    has a handler and its payload can be extracted. *)
Lemma requestHandler_validates reg w req this h cfg payload :
  instances w !! reg_this reg = Some this ->
  handler this = Some h ->
  configs w !! config this = Some cfg ->
  extractPayload reg cfg req = Ok payload ->
  requestHandler reg w req =
    match zodSchemas_input cfg with
    | Some schema =>
        match safeParse schema payload with
        | ParseSuccess _ => Route.invokeHandler h req payload
        | ParseFailure issues =>
            {| response :=
                 {| statusCode := 400;
                    sent := Some (VObj [("message", VStr "Invalid request payload sent");
                                        ("errors", VArr issues)]) |};
               handler_calls := [];
               completion := Ok () |}
        end
    | None =>
        {| response :=
             {| statusCode := 400;
                sent := Some (VObj [("message", VStr "Invalid request payload sent");
                                    ("errors", VUndefined)]) |};
           handler_calls := [];
           completion := Ok () |}
    end.
Proof.
  intros Hthis Hh Hcfg Hpayload. unfold Route.requestHandler.
  rewrite Hthis, Hh, Hcfg, Hpayload.
  destruct (zodSchemas_input cfg) as [schema|]; simpl; [|reflexivity].
  destruct (safeParse schema payload); reflexivity.
Qed.

Lemma requestHandler_invokes reg w req this h cfg schema payload data :
  instances w !! reg_this reg = Some this ->
  handler this = Some h ->
  configs w !! config this = Some cfg ->
  zodSchemas_input cfg = Some schema ->
  extractPayload reg cfg req = Ok payload ->
  safeParse schema payload = ParseSuccess data ->
  requestHandler reg w req = Route.invokeHandler h req payload.
Proof.
  intros Hthis Hh Hcfg Hschema Hpayload Hparse.
  rewrite (requestHandler_validates _ _ _ _ _ _ _ Hthis Hh Hcfg Hpayload).
  rewrite Hschema, Hparse. reflexivity.
Qed.

End dispatch.

(** The message that [processException] derives, case by case. *)
Lemma processException_derived e :
  e <> VNull -> e <> VUndefined -> processException e = Ok (derived_message e).
Proof.
  intros Hnull Hundef. destruct e as [| |b|n|s|items|o]; try congruence; try reflexivity.
  unfold processException, derived_message. simpl.
  destruct (obj_get "message" o) as [[| |b|n|m|items|o']|]; simpl; try reflexivity.
  all: try (destruct b; reflexivity).
  all: try (destruct n; reflexivity).
  all: destruct (String.eqb m ""); reflexivity.
Qed.

Lemma processException_throws e :
  e = VNull \/ e = VUndefined -> processException e = Throw TypeError.
Proof. intros [-> | ->]; reflexivity. Qed.

(** C3. A request whose extracted payload fails validation against the
    input validator of the route is answered with status 400 and the body
    [{message: "Invalid request payload sent", errors}], where [errors] is
    the list of validation issues, which is not empty, and the user handler
    is not invoked. *)
Theorem invalid_payload_is_rejected_with_400 :
  forall Number JSON_parse reg w req this h cfg schema payload issues,
    instances w !! reg_this reg = Some this ->
    handler this = Some h ->
    configs w !! config this = Some cfg ->
    zodSchemas_input cfg = Some schema ->
    zod_reports_issues schema ->
    Route.extractPayload Number JSON_parse reg cfg req = Ok payload ->
    safeParse schema payload = ParseFailure issues ->
    Route.requestHandler Number JSON_parse reg w req =
      {| response :=
           {| statusCode := 400;
              sent := Some (VObj [("message", VStr "Invalid request payload sent");
                                  ("errors", VArr issues)]) |};
         handler_calls := [];
         completion := Ok () |}
    /\ issues <> [].
Proof.
  intros Number JSON_parse reg w req this h cfg schema payload issues
    Hthis Hh Hcfg Hschema Hzod Hpayload Hparse.
  split; [|exact (Hzod _ _ Hparse)].
  rewrite (requestHandler_validates _ _ _ _ _ _ _ _ _ Hthis Hh Hcfg Hpayload).
  rewrite Hschema, Hparse. reflexivity.
Qed.

(** C2, as amended. When the handler throws or rejects with a value [e]
    that is neither [null] nor [undefined], the request is answered with
    status 500 and the body [{message: m}], where [m] is [e] when [e] is a
    string, else the [message] field of [e] when that field is a string
    that is not empty, else "Internal server error occured". *)
Theorem handler_failure_is_answered_with_500 :
  forall Number JSON_parse reg w req this h cfg schema payload data e,
    instances w !! reg_this reg = Some this ->
    handler this = Some h ->
    configs w !! config this = Some cfg ->
    zodSchemas_input cfg = Some schema ->
    Route.extractPayload Number JSON_parse reg cfg req = Ok payload ->
    safeParse schema payload = ParseSuccess data ->
    h (new_Context req) payload = Rejected e ->
    e <> VNull -> e <> VUndefined ->
    Route.requestHandler Number JSON_parse reg w req =
      {| response :=
           {| statusCode := 500;
              sent := Some (VObj [("message", derived_message e)]) |};
         handler_calls := [(new_Context req, payload)];
         completion := Ok () |}.
Proof.
  intros Number JSON_parse reg w req this h cfg schema payload data e
    Hthis Hh Hcfg Hschema Hpayload Hparse Hrej Hnull Hundef.
  rewrite (requestHandler_invokes _ _ _ _ _ _ _ _ _ _ _
             Hthis Hh Hcfg Hschema Hpayload Hparse).
  unfold Route.invokeHandler. rewrite Hrej.
  rewrite (processException_derived e Hnull Hundef). reflexivity.
Qed.

(** C10. When the handler throws or rejects with [null] or [undefined],
    [processException] throws a [TypeError] while it reads the [message]
    field, and the request handler ends with that error: the status is set
    to 500 but no body is sent.  [processException] returns a message
    exactly for the failure values that are neither [null] nor
    [undefined]. *)
Theorem null_failure_escapes_the_500_path :
  forall Number JSON_parse reg w req this h cfg schema payload data e,
    instances w !! reg_this reg = Some this ->
    handler this = Some h ->
    configs w !! config this = Some cfg ->
    zodSchemas_input cfg = Some schema ->
    Route.extractPayload Number JSON_parse reg cfg req = Ok payload ->
    safeParse schema payload = ParseSuccess data ->
    h (new_Context req) payload = Rejected e ->
    e = VNull \/ e = VUndefined ->
    processException e = Throw TypeError
    /\ Route.requestHandler Number JSON_parse reg w req =
         {| response := {| statusCode := 500; sent := None |};
            handler_calls := [(new_Context req, payload)];
            completion := Throw TypeError |}
    /\ (forall e', (exists m, processException e' = Ok m)
                   <-> e' <> VNull /\ e' <> VUndefined).
Proof.
  intros Number JSON_parse reg w req this h cfg schema payload data e
    Hthis Hh Hcfg Hschema Hpayload Hparse Hrej He.
  split; [exact (processException_throws e He)|]. split.
  - rewrite (requestHandler_invokes _ _ _ _ _ _ _ _ _ _ _
               Hthis Hh Hcfg Hschema Hpayload Hparse).
    unfold Route.invokeHandler. rewrite Hrej.
    rewrite (processException_throws e He). reflexivity.
  - intros e'. split.
    + intros [m Hm]. split; intros ->; discriminate Hm.
    + intros [Hnull Hundef]. eexists. exact (processException_derived e' Hnull Hundef).
Qed.

(** ** The builder and the registry *)

Lemma route_object_eta r :
  {| config := config r; updater := updater r; handler := handler r |} = r.
Proof. destruct r; reflexivity. Qed.

Lemma route_config_eta cfg :
  {| opId := opId cfg; opType := opType cfg; method := method cfg; url := url cfg;
     jsonSchema_input := jsonSchema_input cfg;
     jsonSchema_output := jsonSchema_output cfg;
     zodSchemas_input := zodSchemas_input cfg;
     zodSchemas_output := zodSchemas_output cfg |} = cfg.
Proof. destruct cfg; reflexivity. Qed.

Lemma array_store_in_range {A : Type} (i : nat) (x : A) (a : list (option A)) :
  i < length a -> array_store i x a = <[i := Some x]> a.
Proof. intros Hi. unfold array_store. destruct (decide (i < length a)); [reflexivity|lia]. Qed.

(** What one call does to the store, for a route value [this] that is in
    the store together with its configuration. *)
Lemma call_spec c this w r cfg :
  instances w !! this = Some r ->
  configs w !! config r = Some cfg ->
  exists this' w',
    call c this w = Some (this', w')
    /\ configs w' = <[config r := call_config c cfg]> (configs w)
    /\ router_config (router w') = router_config (router w)
    /\ openApiBuilder (router w') = openApiBuilder (router w)
    /\ (if is_refinement c
        then this' = length (instances w)
             /\ instances w' = instances w ++ [new_Route (config r) (updater r)]
             /\ routes (router w') = array_store (updater r) this' (routes (router w))
        else this' = this
             /\ instances w' =
                  <[this := {| config := config r; updater := updater r;
                               handler := call_handler c (handler r) |}]> (instances w)
             /\ routes (router w') = routes (router w)).
Proof.
  intros Hthis Hcfg.
  destruct c as [m|u|schema|schema|handlerFn]; simpl;
    unfold Route.method, Route.url, Route.input, Route.output, Route.fn;
    rewrite Hthis; simpl; rewrite ?Hcfg; simpl; eexists _, _;
    (split; [reflexivity|]); simpl.
  - rewrite route_object_eta, (list_insert_id _ _ _ Hthis). auto 10.
  - rewrite route_object_eta, (list_insert_id _ _ _ Hthis). auto 10.
  - auto 10.
  - auto 10.
  - rewrite (list_insert_id _ _ _ Hcfg). auto 10.
Qed.

(** A chain of calls on the route value that the registry holds for its
    slot: the chain ends on the route value that the registry then holds,
    the configuration object has gone through the calls, and the handler of
    that route value is what the calls leave of it. *)
Lemma chain_spec calls : forall this w r cfg,
  instances w !! this = Some r ->
  configs w !! config r = Some cfg ->
  routes (router w) !! updater r = Some (Some this) ->
  exists this' w',
    chain calls this w = Some (this', w')
    /\ instances w' !! this' =
         Some {| config := config r; updater := updater r;
                 handler := chain_handler calls (handler r) |}
    /\ configs w' = <[config r := chain_config calls cfg]> (configs w)
    /\ routes (router w') = <[updater r := Some this']> (routes (router w))
    /\ router_config (router w') = router_config (router w)
    /\ openApiBuilder (router w') = openApiBuilder (router w).
Proof.
  induction calls as [|c calls IH]; intros this w r cfg Hthis Hcfg Hslot.
  - exists this, w. simpl. rewrite route_object_eta.
    rewrite (list_insert_id _ _ _ Hcfg), (list_insert_id _ _ _ Hslot). auto 10.
  - destruct (call_spec c this w r cfg Hthis Hcfg)
      as (this1 & w1 & Hcall & Hconfigs & Hrc & Hdoc & Hkind).
    pose proof (lookup_lt_Some _ _ _ Hcfg) as Hc.
    pose proof (lookup_lt_Some _ _ _ Hslot) as Hu.
    pose proof (lookup_lt_Some _ _ _ Hthis) as Ht.
    assert (Hthis1 : instances w1 !! this1 =
              Some {| config := config r; updater := updater r;
                      handler := call_handler c (handler r) |}
            /\ routes (router w1) = <[updater r := Some this1]> (routes (router w))).
    { destruct (is_refinement c) eqn:Hc'.
      - destruct Hkind as (-> & -> & ->). split.
        + rewrite list_lookup_middle by reflexivity.
          destruct c; try discriminate Hc'; reflexivity.
        + apply array_store_in_range, Hu.
      - destruct Hkind as (-> & -> & ->). split.
        + apply list_lookup_insert_eq, Ht.
        + symmetry. apply list_insert_id, Hslot. }
    destruct Hthis1 as [Hthis1 Hroutes1].
    destruct (IH this1 w1 _ (call_config c cfg) Hthis1) as
      (this2 & w2 & Hchain & Hthis2 & Hconfigs2 & Hroutes2 & Hrc2 & Hdoc2).
    + simpl. rewrite Hconfigs. apply list_lookup_insert_eq, Hc.
    + simpl. rewrite Hroutes1. apply list_lookup_insert_eq, Hu.
    + exists this2, w2. simpl in *. rewrite Hcall. simpl.
      split; [exact Hchain|]. split; [exact Hthis2|].
      split; [rewrite Hconfigs2, Hconfigs; apply list_insert_insert_eq|].
      split; [rewrite Hroutes2, Hroutes1; apply list_insert_insert_eq|].
      split; congruence.
Qed.

(** A registration puts the new route value into a new last slot. *)
Lemma _addRoute_spec cfg w :
  let '(route, w') := Router._addRoute cfg w in
  route = length (instances w)
  /\ instances w' = instances w ++ [new_Route (length (configs w)) (length (routes (router w)))]
  /\ configs w' = configs w ++ [cfg]
  /\ routes (router w') = routes (router w) ++ [Some route]
  /\ router_config (router w') = router_config (router w)
  /\ openApiBuilder (router w') = openApiBuilder (router w).
Proof. simpl. auto 10. Qed.

Lemma chain_config_opId calls : forall cfg, opId (chain_config calls cfg) = opId cfg.
Proof.
  induction calls as [|c calls IH]; intros cfg; [reflexivity|].
  simpl. unfold chain_config in IH. rewrite IH. destruct c; reflexivity.
Qed.

Lemma chain_config_url calls : forall cfg,
  forallb (fun c => negb (is_url c)) calls = true ->
  url (chain_config calls cfg) = url cfg.
Proof.
  induction calls as [|c calls IH]; intros cfg H; [reflexivity|].
  simpl in H. apply andb_prop in H as [Hc H].
  simpl. unfold chain_config in IH. rewrite (IH _ H).
  destruct c; try discriminate Hc; reflexivity.
Qed.

Lemma chain_config_method calls : forall cfg,
  forallb (fun c => negb (is_method c)) calls = true ->
  method (chain_config calls cfg) = method cfg.
Proof.
  induction calls as [|c calls IH]; intros cfg H; [reflexivity|].
  simpl in H. apply andb_prop in H as [Hc H].
  simpl. unfold chain_config in IH. rewrite (IH _ H).
  destruct c; try discriminate Hc; reflexivity.
Qed.

Lemma chain_config_input calls : forall cfg,
  forallb (fun c => negb (is_input c)) calls = true ->
  zodSchemas_input (chain_config calls cfg) = zodSchemas_input cfg
  /\ jsonSchema_input (chain_config calls cfg) = jsonSchema_input cfg.
Proof.
  induction calls as [|c calls IH]; intros cfg H; [split; reflexivity|].
  simpl in H. apply andb_prop in H as [Hc H].
  change (chain_config (c :: calls) cfg) with (chain_config calls (call_config c cfg)).
  destruct (IH (call_config c cfg) H) as [-> ->].
  destruct c; try discriminate Hc; split; reflexivity.
Qed.

Lemma chain_config_output calls : forall cfg,
  forallb (fun c => negb (is_output c)) calls = true ->
  zodSchemas_output (chain_config calls cfg) = zodSchemas_output cfg
  /\ jsonSchema_output (chain_config calls cfg) = jsonSchema_output cfg.
Proof.
  induction calls as [|c calls IH]; intros cfg H; [split; reflexivity|].
  simpl in H. apply andb_prop in H as [Hc H].
  change (chain_config (c :: calls) cfg) with (chain_config calls (call_config c cfg)).
  destruct (IH (call_config c cfg) H) as [-> ->].
  destruct c; try discriminate Hc; split; reflexivity.
Qed.

(** A chain of calls on the route value that a registration returns. *)
Lemma registered_chain cfg0 calls w :
  exists r w',
    chain calls (fst (Router._addRoute cfg0 w)) (snd (Router._addRoute cfg0 w)) = Some (r, w')
    /\ routes (router w') !! length (routes (router w)) = Some (Some r)
    /\ length (routes (router w')) = S (length (routes (router w)))
    /\ config_of w' r = Some (chain_config calls cfg0)
    /\ handler_of w' r = chain_handler calls None
    /\ router_config (router w') = router_config (router w).
Proof.
  pose proof (_addRoute_spec cfg0 w) as Hadd.
  destruct (Router._addRoute cfg0 w) as [q wq].
  destruct Hadd as (-> & Hinst & Hconfigs & Hroutes & Hrc & _). simpl fst; simpl snd.
  set (r0 := new_Route (length (configs w)) (length (routes (router w)))) in *.
  assert (Hq : instances wq !! length (instances w) = Some r0).
  { rewrite Hinst. apply list_lookup_middle. reflexivity. }
  assert (Hc : configs wq !! config r0 = Some cfg0).
  { rewrite Hconfigs. apply list_lookup_middle. reflexivity. }
  assert (Hs : routes (router wq) !! updater r0 = Some (Some (length (instances w)))).
  { rewrite Hroutes. apply list_lookup_middle. reflexivity. }
  destruct (chain_spec calls _ _ _ _ Hq Hc Hs)
    as (r & w' & Hchain & Hr & Hconfigs' & Hroutes' & Hrc' & _).
  exists r, w'. split; [exact Hchain|].
  pose proof (lookup_lt_Some _ _ _ Hs) as Hlt.
  pose proof (lookup_lt_Some _ _ _ Hc) as Hltc.
  split; [rewrite Hroutes'; apply list_lookup_insert_eq, Hlt|].
  split; [rewrite Hroutes', length_insert, Hroutes, length_app; simpl; lia|].
  split; [|split].
  - unfold config_of. rewrite Hr. simpl. rewrite Hconfigs'.
    apply list_lookup_insert_eq, Hltc.
  - unfold handler_of. rewrite Hr. reflexivity.
  - congruence.
Qed.

(** C7. A route made by [query] has the method [get] and a route made by
    [mutation] has the method [post], and in both cases the URL is
    [{baseUrl}/{opId}]; the method stays through every chain of calls
    without a [method] call, the URL through every chain without a [url]
    call. *)
Theorem registration_defaults :
  forall w opId calls,
    (exists r w' cfg,
        chain calls (fst (Router.query opId w)) (snd (Router.query opId w)) = Some (r, w')
        /\ routes (router w') !! length (routes (router w)) = Some (Some r)
        /\ config_of w' r = Some cfg
        /\ (forallb (fun c => negb (is_method c)) calls = true -> method cfg = "get")
        /\ (forallb (fun c => negb (is_url c)) calls = true ->
            url cfg = baseUrl (router_config (router w)) +:+ "/" +:+ opId))
    /\ (exists r w' cfg,
        chain calls (fst (Router.mutation opId w)) (snd (Router.mutation opId w)) = Some (r, w')
        /\ routes (router w') !! length (routes (router w)) = Some (Some r)
        /\ config_of w' r = Some cfg
        /\ (forallb (fun c => negb (is_method c)) calls = true -> method cfg = "post")
        /\ (forallb (fun c => negb (is_url c)) calls = true ->
            url cfg = baseUrl (router_config (router w)) +:+ "/" +:+ opId)).
Proof.
  intros w opId calls. split; unfold Router.query, Router.mutation.
  - match goal with |- context [Router._addRoute ?c w] =>
      destruct (registered_chain c calls w) as (r & w' & Hchain & Hslot & _ & Hcfg & _) end.
    eexists r, w', _. split; [exact Hchain|]. split; [exact Hslot|].
    split; [exact Hcfg|]. split; intros H.
    + rewrite chain_config_method by exact H. reflexivity.
    + rewrite chain_config_url by exact H. reflexivity.
  - match goal with |- context [Router._addRoute ?c w] =>
      destruct (registered_chain c calls w) as (r & w' & Hchain & Hslot & _ & Hcfg & _) end.
    eexists r, w', _. split; [exact Hchain|]. split; [exact Hslot|].
    split; [exact Hcfg|]. split; intros H.
    + rewrite chain_config_method by exact H. reflexivity.
    + rewrite chain_config_url by exact H. reflexivity.
Qed.

(** *** The registry invariant *)

Lemma latest_from_app index r : forall l base,
  latest_from base index (l ++ [r]) =
    if decide (updater r = index) then Some (base + length l)
    else latest_from base index l.
Proof.
  induction l as [|x l IH]; intros base; simpl.
  - rewrite Nat.add_0_r. reflexivity.
  - rewrite IH. destruct (decide (updater r = index)); [|reflexivity].
    f_equal. lia.
Qed.

Lemma latest_from_insert index k r r' : forall l base,
  l !! k = Some r -> updater r' = updater r ->
  latest_from base index (<[k := r']> l) = latest_from base index l.
Proof.
  intros l. revert k. induction l as [|x l IH]; intros k base Hk Hupd; [discriminate|].
  destruct k as [|k]; simpl in *.
  - injection Hk as ->. rewrite Hupd. reflexivity.
  - rewrite (IH k (S base) Hk Hupd). reflexivity.
Qed.

Lemma call_config_schemas c cfg :
  is_Some (zodSchemas_input cfg) /\ is_Some (zodSchemas_output cfg) ->
  is_Some (zodSchemas_input (call_config c cfg))
  /\ is_Some (zodSchemas_output (call_config c cfg)).
Proof. intros [Hi Ho]. destruct c; simpl; split; eauto. Qed.

Lemma registry_inv_new cfg : registry_inv (new_Router cfg).
Proof.
  split; simpl.
  - intros i Hi. lia.
  - intros l r Hl. discriminate.
  - intros c cfg' Hc. discriminate.
Qed.

Lemma registry_inv__addRoute cfg0 w :
  is_Some (zodSchemas_input cfg0) -> is_Some (zodSchemas_output cfg0) ->
  registry_inv w -> registry_inv (snd (Router._addRoute cfg0 w)).
Proof.
  intros Hin Hout [Hslots Hinst Hsch].
  pose proof (_addRoute_spec cfg0 w) as Hadd.
  destruct (Router._addRoute cfg0 w) as [q w'].
  destruct Hadd as (-> & Hinstances & Hconfigs & Hroutes & _ & _). simpl snd.
  split.
  - intros i Hi. rewrite Hroutes, length_app in Hi. simpl in Hi.
    unfold latest_route. rewrite Hroutes, Hinstances, latest_from_app. simpl.
    destruct (decide (length (routes (router w)) = i)) as [<-|Hne].
    + eexists. split; [apply list_lookup_middle; reflexivity|reflexivity].
    + assert (Hlt : i < length (routes (router w))) by lia.
      destruct (Hslots i Hlt) as (l & Hl & Hlatest). exists l.
      split; [rewrite lookup_app_l by exact Hlt; exact Hl|exact Hlatest].
  - intros l r Hl. rewrite Hroutes, Hconfigs, !length_app. simpl.
    rewrite Hinstances in Hl. apply lookup_app_Some in Hl as [Hl|[_ Hl]].
    + destruct (Hinst l r Hl). lia.
    + destruct (l - length (instances w)) as [|n]; [|discriminate Hl].
      injection Hl as <-. simpl. lia.
  - intros c cfg Hc. rewrite Hconfigs in Hc.
    apply lookup_app_Some in Hc as [Hc|[_ Hc]]; [exact (Hsch c cfg Hc)|].
    destruct (c - length (configs w)) as [|n]; [|discriminate Hc].
    injection Hc as <-. split; assumption.
Qed.

Lemma call_lookup c this w rw :
  call c this w = Some rw -> exists r, instances w !! this = Some r.
Proof.
  destruct (instances w !! this) as [r|] eqn:Hthis; [eauto|].
  destruct c; simpl;
    unfold Route.method, Route.url, Route.input, Route.output, Route.fn;
    rewrite Hthis; discriminate.
Qed.

Lemma registry_inv_call c this w this' w' :
  registry_inv w -> call c this w = Some (this', w') -> registry_inv w'.
Proof.
  intros [Hslots Hinst Hsch] Hcall.
  destruct (call_lookup _ _ _ _ Hcall) as [r Hthis].
  destruct (Hinst this r Hthis) as [Hu Hc].
  destruct (lookup_lt_is_Some_2 _ _ Hc) as [cfg Hcfg].
  destruct (call_spec c this w r cfg Hthis Hcfg)
    as (this1 & w1 & Hcall1 & Hconfigs & _ & _ & Hkind).
  rewrite Hcall in Hcall1. injection Hcall1 as <- <-.
  assert (Hsch' : forall c0 cfg0, configs w' !! c0 = Some cfg0 ->
            is_Some (zodSchemas_input cfg0) /\ is_Some (zodSchemas_output cfg0)).
  { intros c0 cfg0 H0. rewrite Hconfigs in H0.
    apply list_lookup_insert_Some in H0 as [(_ & <- & _)|[_ H0]].
    - apply call_config_schemas, (Hsch _ _ Hcfg).
    - exact (Hsch _ _ H0). }
  destruct (is_refinement c).
  - destruct Hkind as (-> & Hinstances & Hroutes).
    rewrite (array_store_in_range _ _ _ Hu) in Hroutes.
    split; [| |exact Hsch'].
    + intros i Hi. rewrite Hroutes, length_insert in Hi.
      unfold latest_route. rewrite Hroutes, Hinstances, latest_from_app. simpl.
      destruct (decide (updater r = i)) as [<-|Hne].
      * eexists. split; [apply list_lookup_insert_eq, Hu|reflexivity].
      * rewrite list_lookup_insert_ne by exact Hne. exact (Hslots i Hi).
    + intros l r0 Hl. rewrite Hroutes, Hconfigs, !length_insert.
      rewrite Hinstances in Hl. apply lookup_app_Some in Hl as [Hl|[_ Hl]].
      * exact (Hinst l r0 Hl).
      * destruct (l - length (instances w)) as [|n]; [|discriminate Hl].
        injection Hl as <-. simpl. split; assumption.
  - destruct Hkind as (-> & Hinstances & Hroutes).
    split; [| |exact Hsch'].
    + intros i Hi. rewrite Hroutes in Hi |- *.
      unfold latest_route. rewrite Hinstances.
      rewrite (latest_from_insert i this r) by (exact Hthis || reflexivity).
      exact (Hslots i Hi).
    + intros l r0 Hl. rewrite Hroutes, Hconfigs, length_insert.
      rewrite Hinstances in Hl.
      apply list_lookup_insert_Some in Hl as [(_ & <- & _)|[_ Hl]].
      * simpl. split; assumption.
      * exact (Hinst l r0 Hl).
Qed.

Lemma registry_inv_exec s w w' :
  registry_inv w -> exec s w = Some w' -> registry_inv w'.
Proof.
  intros Hinv Hexec. destruct s as [opId|opId|this c]; simpl in Hexec.
  - injection Hexec as <-. apply registry_inv__addRoute; simpl; eauto.
  - injection Hexec as <-. apply registry_inv__addRoute; simpl; eauto.
  - destruct (call c this w) as [[this' w1]|] eqn:Hcall; [|discriminate].
    injection Hexec as <-. exact (registry_inv_call _ _ _ _ _ Hinv Hcall).
Qed.

Lemma exec_routes_length s w w' :
  registry_inv w -> exec s w = Some w' ->
  length (routes (router w')) =
    (if is_registration s then 1 else 0) + length (routes (router w)).
Proof.
  intros Hinv Hexec. destruct s as [opId|opId|this c]; simpl in Hexec.
  - injection Hexec as <-. simpl. rewrite length_app. simpl. lia.
  - injection Hexec as <-. simpl. rewrite length_app. simpl. lia.
  - destruct (call c this w) as [[this' w1]|] eqn:Hcall; [|discriminate].
    injection Hexec as <-.
    destruct (call_lookup _ _ _ _ Hcall) as [r Hthis].
    destruct (inv_instances w Hinv this r Hthis) as [Hu Hc].
    destruct (lookup_lt_is_Some_2 _ _ Hc) as [cfg Hcfg].
    destruct (call_spec c this w r cfg Hthis Hcfg)
      as (this1 & w2 & Hcall1 & _ & _ & _ & Hkind).
    rewrite Hcall in Hcall1. injection Hcall1 as <- <-. simpl.
    destruct (is_refinement c); destruct Hkind as (_ & _ & ->); [|reflexivity].
    rewrite (array_store_in_range _ _ _ Hu). apply length_insert.
Qed.

Lemma run_inv script : forall w w',
  registry_inv w -> run script w = Some w' ->
  registry_inv w'
  /\ length (routes (router w')) =
       length (filter (fun s => is_registration s = true) script)
       + length (routes (router w)).
Proof.
  induction script as [|s script IH]; intros w w' Hinv Hrun; simpl in Hrun.
  - injection Hrun as <-. split; [exact Hinv|reflexivity].
  - destruct (exec s w) as [w1|] eqn:Hexec; [|discriminate]. simpl in Hrun.
    destruct (IH w1 w' (registry_inv_exec _ _ _ Hinv Hexec) Hrun) as [Hinv' Hlen].
    split; [exact Hinv'|]. rewrite Hlen, (exec_routes_length _ _ _ Hinv Hexec).
    rewrite filter_cons. destruct (is_registration s); simpl.
    + destruct (decide (true = true)); [simpl; lia|congruence].
    + destruct (decide (false = true)); [discriminate|lia].
Qed.

(** C6. In every store that a start-up script reaches, the registry has
    exactly one slot for each [query] or [mutation] call, every slot holds
    the route value made last for its operation, and an [input] or
    [output] call on any route value puts the new route value into the
    slot of that operation, in place, without lengthening the registry. *)
Theorem refinements_overwrite_their_slot :
  forall cfg script w,
    run script (new_Router cfg) = Some w ->
    length (routes (router w)) =
      length (filter (fun s => is_registration s = true) script)
    /\ (forall i, i < length (routes (router w)) ->
          exists l, routes (router w) !! i = Some (Some l) /\ latest_route i w = Some l)
    /\ (forall this r c,
          instances w !! this = Some r -> is_refinement c = true ->
          exists this' w',
            call c this w = Some (this', w')
            /\ this' = length (instances w)
            /\ updater r < length (routes (router w))
            /\ routes (router w') = <[updater r := Some this']> (routes (router w))
            /\ length (routes (router w')) = length (routes (router w))
            /\ latest_route (updater r) w' = Some this').
Proof.
  intros cfg script w Hrun.
  destruct (run_inv script _ _ (registry_inv_new cfg) Hrun) as [Hinv Hlen].
  split; [rewrite Hlen; simpl; lia|]. split; [exact (inv_slots w Hinv)|].
  intros this r c Hthis Href.
  destruct (inv_instances w Hinv this r Hthis) as [Hu Hc].
  destruct (lookup_lt_is_Some_2 _ _ Hc) as [cfg0 Hcfg].
  destruct (call_spec c this w r cfg0 Hthis Hcfg)
    as (this' & w' & Hcall & _ & _ & _ & Hkind).
  rewrite Href in Hkind. destruct Hkind as (-> & Hinstances & Hroutes).
  rewrite (array_store_in_range _ _ _ Hu) in Hroutes.
  eexists _, w'. split; [exact Hcall|]. split; [reflexivity|].
  split; [exact Hu|]. split; [exact Hroutes|].
  split; [rewrite Hroutes; apply length_insert|].
  unfold latest_route. rewrite Hinstances, latest_from_app. simpl.
  destruct (decide (updater r = updater r)); [reflexivity|congruence].
Qed.

(** ** The OpenAPI operation of a route *)

Lemma _getOpenAPIOperation_defined cfg zi zo :
  zodSchemas_input cfg = Some zi ->
  zodSchemas_output cfg = Some zo ->
  Route._getOpenAPIOperation cfg =
    Ok (url cfg, method cfg,
        VObj [("operationId", VStr (opId cfg));
              ("requestBody", request_body cfg (String.eqb (typeName zi) "ZodNull"));
              ("responses",
               VObj [(if String.eqb (typeName zo) "ZodNull" then "204" else "200",
                      success_response cfg (String.eqb (typeName zo) "ZodNull"));
                     ("400", getErrorResponseSchema);
                     ("500", getErrorResponseSchema)]);
              ("x-request-op-type", VStr (opType cfg))]).
Proof.
  intros Hi Ho. unfold Route._getOpenAPIOperation, request_body, success_response.
  rewrite Hi, Ho. simpl.
  destruct (String.eqb (typeName zi) "ZodNull"), (String.eqb (typeName zo) "ZodNull");
    reflexivity.
Qed.

(** C5. For every route object of a router, the OpenAPI operation is
    generated, its responses are the success response and the entries
    [400] and [500], both with the standard error response: the
    description [Standard error response object] and, as
    [application/json] body schema, an object with a string [message] and
    an array [errors] of objects that have a string [message] and may have
    further properties.  The success response is filed under [204],
    without body schema, when the output schema is [z.null()], and under
    [200], with the output schema as the [application/json] body schema,
    otherwise. *)
Theorem operation_responses :
  forall rc script w this cfg,
    run script (new_Router rc) = Some w ->
    config_of w this = Some cfg ->
    exists zo op responses error_response,
      zodSchemas_output cfg = Some zo
      /\ Route._getOpenAPIOperation cfg = Ok (url cfg, method cfg, op)
      /\ get_prop op "responses" = Ok (VObj responses)
      /\ obj_get "400" responses = Some error_response
      /\ obj_get "500" responses = Some error_response
      /\ error_response =
           VObj [("description", VStr "Standard error response object");
              ("content",
               VObj [("application/json",
                      VObj [("schema",
                             VObj [("type", VStr "object");
                                   ("properties",
                                    VObj [("message", VObj [("type", VStr "string")]);
                                          ("errors",
                                           VObj [("type", VStr "array");
                                                 ("items",
                                                  VObj [("type", VStr "object");
                                                        ("properties",
                                                         VObj [("message",
                                                                VObj [("type",
                                                                       VStr "string")])]);
                                                        ("additionalProperties",
                                                         VBool true)])])])])])])]
      /\ (if String.eqb (typeName zo) "ZodNull"
          then obj_keys responses = ["204"; "400"; "500"]
               /\ obj_get "204" responses =
                    Some (VObj [("description",
                                 VStr ("Success response object for " +:+ opId cfg))])
          else obj_keys responses = ["200"; "400"; "500"]
               /\ obj_get "200" responses =
                    Some (VObj [("description",
                                 VStr ("Success response object for " +:+ opId cfg));
                                ("content",
                                 VObj [("application/json",
                                        VObj [("schema", jsonSchema_output cfg)])])])).
Proof.
  intros rc script w this cfg Hrun Hcfg.
  destruct (run_inv script _ _ (registry_inv_new rc) Hrun) as [Hinv _].
  unfold config_of in Hcfg. destruct (instances w !! this) as [r|]; [|discriminate].
  simpl in Hcfg. destruct (inv_schemas w Hinv _ _ Hcfg) as [[zi Hzi] [zo Hzo]].
  exists zo. eexists _, _, _. split; [exact Hzo|].
  split; [exact (_getOpenAPIOperation_defined cfg zi zo Hzi Hzo)|].
  split; [reflexivity|]. unfold success_response.
  destruct (String.eqb (typeName zo) "ZodNull"); simpl;
    (split; [reflexivity|]); (split; [reflexivity|]); (split; [reflexivity|]); auto.
Qed.

Lemma chain_config_schemas calls : forall cfg,
  is_Some (zodSchemas_input cfg) /\ is_Some (zodSchemas_output cfg) ->
  is_Some (zodSchemas_input (chain_config calls cfg))
  /\ is_Some (zodSchemas_output (chain_config calls cfg)).
Proof.
  induction calls as [|c calls IH]; intros cfg H; [exact H|].
  change (chain_config (c :: calls) cfg) with (chain_config calls (call_config c cfg)).
  apply IH, call_config_schemas, H.
Qed.

(** A request to a route without payload, whose handler returns: the
    handler is called with [null] and its result is sent with status 200. *)
Lemma requestHandler_null_input Number JSON_parse reg w req h cfg output :
  handler_of w (reg_this reg) = Some h ->
  config_of w (reg_this reg) = Some cfg ->
  isRequestPayloadPresent reg = false ->
  zodSchemas_input cfg = Some z_null ->
  h (new_Context req) VNull = Fulfilled output ->
  Route.requestHandler Number JSON_parse reg w req =
    {| response := {| statusCode := 200; sent := Some output |};
       handler_calls := [(new_Context req, VNull)];
       completion := Ok () |}.
Proof.
  unfold handler_of, config_of. intros Hh Hcfg Hreg Hschema Hout.
  destruct (instances w !! reg_this reg) as [this|] eqn:Hthis; [|discriminate].
  simpl in Hh, Hcfg.
  rewrite (requestHandler_invokes Number JSON_parse reg w req this h cfg z_null VNull VNull
             Hthis Hh Hcfg Hschema).
  - unfold Route.invokeHandler. rewrite Hout. reflexivity.
  - unfold Route.extractPayload. rewrite Hreg. reflexivity.
  - reflexivity.
Qed.

(** C4, as amended. For a query route with no declared input schema the
    OpenAPI operation does not require a request body.  Its success
    response is advertised under [204] exactly when the output schema is
    [z.null()]; with no declared output schema, which for a query is
    [z.any()], it is advertised under [200].  On a successful call the
    request handler answers with status 200 and the result of the user
    handler. *)
Theorem query_without_input_operation :
  forall Number JSON_parse w opId calls,
    forallb (fun c => negb (is_input c)) calls = true ->
    exists r w' cfg zo op responses reg,
      chain calls (fst (Router.query opId w)) (snd (Router.query opId w)) = Some (r, w')
      /\ config_of w' r = Some cfg
      /\ zodSchemas_output cfg = Some zo
      /\ Route._getOpenAPIOperation cfg = Ok (url cfg, method cfg, op)
      /\ get_prop op "requestBody" =
           Ok (VObj [("description", VStr ("Request object for " +:+ opId));
                     ("content", VObj []);
                     ("required", VBool false)])
      /\ get_prop op "responses" = Ok (VObj responses)
      /\ (is_Some (obj_get "204" responses) <-> typeName zo = "ZodNull")
      /\ (forallb (fun c => negb (is_output c)) calls = true ->
          obj_keys responses = ["200"; "400"; "500"])
      /\ Route.addRoute r w' [] = Ok [reg]
      /\ reg_this reg = r
      /\ (forall h req output,
            handler_of w' r = Some h ->
            h (new_Context req) VNull = Fulfilled output ->
            Route.requestHandler Number JSON_parse reg w' req =
              {| response := {| statusCode := 200; sent := Some output |};
                 handler_calls := [(new_Context req, VNull)];
                 completion := Ok () |}).
Proof.
  intros Number JSON_parse w opId calls Hcalls. unfold Router.query.
  match goal with |- context [Router._addRoute ?c w] => set (cfg0 := c) end.
  destruct (registered_chain cfg0 calls w) as (r & w' & Hchain & _ & _ & Hcfg & _).
  destruct (chain_config_input calls cfg0 Hcalls) as [Hzi Hji].
  destruct (chain_config_schemas calls cfg0) as [_ [zo Hzo]]; [simpl; eauto|].
  set (cfg := chain_config calls cfg0) in *.
  exists r, w', cfg, zo. eexists _, _, _.
  split; [exact Hchain|]. split; [exact Hcfg|]. split; [exact Hzo|].
  split; [exact (_getOpenAPIOperation_defined cfg z_null zo Hzi Hzo)|].
  split; [simpl; unfold cfg; rewrite chain_config_opId; reflexivity|].
  split; [reflexivity|]. split; [|split; [|split; [|split]]].
  - destruct (String.eqb (typeName zo) "ZodNull") eqn:Hnull; simpl.
    + apply String.eqb_eq in Hnull. split; eauto.
    + apply String.eqb_neq in Hnull. split; [intros [x Hx]; discriminate|contradiction].
  - intros Hout. destruct (chain_config_output calls cfg0 Hout) as [Hzo' _].
    fold cfg in Hzo'. rewrite Hzo in Hzo'. injection Hzo' as ->. reflexivity.
  - unfold Route.addRoute. rewrite Hcfg, Hzi. reflexivity.
  - reflexivity.
  - intros h req output Hh Hout.
    apply (requestHandler_null_input Number JSON_parse _ w' req h cfg output);
      try assumption; reflexivity.
Qed.

(** ** Handlers and refinements *)

Lemma chain_handler_app l1 l2 h :
  chain_handler (l1 ++ l2) h = chain_handler l2 (chain_handler l1 h).
Proof. apply fold_left_app. Qed.

Lemma chain_handler_no_fn post :
  forallb (fun c => negb (is_fn c)) post = true -> chain_handler post None = None.
Proof.
  induction post as [|c post IH]; intros H; [reflexivity|].
  simpl in H. apply andb_prop in H as [Hc H].
  destruct c; try discriminate Hc; exact (IH H).
Qed.

Lemma chain_handler_setters post : forall h,
  forallb (fun c => negb (is_refinement c)) post = true ->
  forallb (fun c => negb (is_fn c)) post = true ->
  chain_handler post h = h.
Proof.
  induction post as [|c post IH]; intros h Hr Hf; [reflexivity|].
  simpl in Hr, Hf. apply andb_prop in Hr as [Hc Hr]. apply andb_prop in Hf as [Hc' Hf].
  destruct c; try discriminate Hc; try discriminate Hc'; exact (IH _ Hr Hf).
Qed.

Lemma requestHandler_without_handler Number JSON_parse reg w req :
  is_Some (instances w !! reg_this reg) ->
  handler_of w (reg_this reg) = None ->
  Route.requestHandler Number JSON_parse reg w req =
    {| response := new_response;
       handler_calls := [];
       completion := Throw (Error "Validator and query are not defined") |}.
Proof.
  intros [this Hthis] Hh. unfold handler_of in Hh. unfold Route.requestHandler.
  rewrite Hthis in *. simpl in Hh. rewrite Hh. reflexivity.
Qed.

(** C9, as amended. A chain of calls on the route value that the registry
    holds ends on the route value that the registry then holds.  When [fn]
    is followed in the chain by an [input] or [output] call and no [fn]
    call comes after that refinement, the registered route value has no
    handler, and a request to it throws "Validator and query are not
    defined" without a call of the attached function and without a
    response.  The attachment survives when only [method] and [url] calls
    follow the [fn] call. *)
Theorem refinement_after_fn_drops_the_handler :
  forall Number JSON_parse calls this w r cfg,
    instances w !! this = Some r ->
    configs w !! config r = Some cfg ->
    routes (router w) !! updater r = Some (Some this) ->
    exists this' w',
      chain calls this w = Some (this', w')
      /\ routes (router w') !! updater r = Some (Some this')
      /\ handler_of w' this' = chain_handler calls (handler r)
      /\ (forall pre f mid c post,
            calls = pre ++ CallFn f :: mid ++ c :: post ->
            is_refinement c = true ->
            forallb (fun c => negb (is_fn c)) post = true ->
            handler_of w' this' = None
            /\ forall reg req, reg_this reg = this' ->
                 Route.requestHandler Number JSON_parse reg w' req =
                   {| response := new_response;
                      handler_calls := [];
                      completion := Throw (Error "Validator and query are not defined") |})
      /\ (forall pre f post,
            calls = pre ++ CallFn f :: post ->
            forallb (fun c => negb (is_refinement c)) post = true ->
            forallb (fun c => negb (is_fn c)) post = true ->
            handler_of w' this' = Some f).
Proof.
  intros Number JSON_parse calls this w r cfg Hthis Hcfg Hslot.
  destruct (chain_spec calls this w r cfg Hthis Hcfg Hslot)
    as (this' & w' & Hchain & Hthis' & _ & Hroutes & _ & _).
  assert (Hh : handler_of w' this' = chain_handler calls (handler r)).
  { unfold handler_of. rewrite Hthis'. reflexivity. }
  exists this', w'. split; [exact Hchain|].
  split; [rewrite Hroutes; apply list_lookup_insert_eq, (lookup_lt_Some _ _ _ Hslot)|].
  split; [exact Hh|]. split.
  - intros pre f mid c post -> Hc Hpost.
    assert (Hnone : handler_of w' this' = None).
    { rewrite Hh. rewrite chain_handler_app.
      change (CallFn f :: mid ++ c :: post) with ((CallFn f :: mid) ++ c :: post).
      rewrite chain_handler_app.
      change (chain_handler (c :: post) ?h) with (chain_handler post (call_handler c h)).
      destruct c; try discriminate Hc; exact (chain_handler_no_fn post Hpost). }
    split; [exact Hnone|]. intros reg req <-.
    apply requestHandler_without_handler; [|exact Hnone].
    rewrite Hthis'. eauto.
  - intros pre f post -> Hr Hf. rewrite Hh, chain_handler_app.
    change (chain_handler (CallFn f :: post) ?h) with (chain_handler post (Some f)).
    exact (chain_handler_setters post _ Hr Hf).
Qed.

(** ** Property maps *)

(** Case analysis on a comparison of property names in the goal. *)
Ltac case_eqb :=
  match goal with
  | |- context [String.eqb ?a ?b] => destruct (String.eqb_spec a b)
  end.

Section assoc_facts.
Context {A : Type}.
Implicit Types (o : list (string * A)) (k : string) (v : A).

Lemma obj_get_set_eq k v o : obj_get k (obj_set k v o) = Some v.
Proof.
  induction o as [|[k0 v0] o IH]; simpl.
  - rewrite String.eqb_refl. reflexivity.
  - destruct (String.eqb_spec k0 k) as [->|Hne]; simpl.
    + rewrite String.eqb_refl. reflexivity.
    + apply String.eqb_neq in Hne. rewrite Hne. exact IH.
Qed.

Lemma obj_get_set_ne k k' v o : k <> k' -> obj_get k (obj_set k' v o) = obj_get k o.
Proof.
  intros Hne. induction o as [|[k0 v0] o IH]; simpl.
  - destruct (String.eqb_spec k' k); [congruence|reflexivity].
  - destruct (String.eqb_spec k0 k') as [->|Hne0]; simpl.
    + destruct (String.eqb_spec k' k); [congruence|reflexivity].
    + destruct (String.eqb_spec k0 k); [reflexivity|exact IH].
Qed.

Lemma obj_set_set_eq k v v' o : obj_set k v (obj_set k v' o) = obj_set k v o.
Proof.
  induction o as [|[k0 v0] o IH]; simpl.
  - rewrite String.eqb_refl. reflexivity.
  - destruct (String.eqb_spec k0 k) as [->|Hne]; simpl.
    + rewrite String.eqb_refl. reflexivity.
    + apply String.eqb_neq in Hne. rewrite Hne, IH. reflexivity.
Qed.

Lemma obj_set_comm k k' v v' o :
  k <> k' -> is_Some (obj_get k o) ->
  obj_set k v (obj_set k' v' o) = obj_set k' v' (obj_set k v o).
Proof.
  intros Hne. induction o as [|[k0 v0] o IH]; simpl; intros Hk.
  - destruct Hk as [x Hx]. discriminate.
  - repeat (case_eqb; simpl; subst; try congruence).
    rewrite IH by exact Hk. reflexivity.
Qed.



Lemma obj_get_None k o : obj_get k o = None <-> k ∉ obj_keys o.
Proof.
  induction o as [|[k0 v0] o IH]; simpl.
  - split; [intros _; apply not_elem_of_nil|reflexivity].
  - rewrite not_elem_of_cons. destruct (String.eqb_spec k0 k) as [->|Hne].
    + split; [discriminate|intros [H _]; congruence].
    + rewrite IH. split; [intros H; split; [congruence|exact H]|intros [_ H]; exact H].
Qed.

End assoc_facts.

(** ** Replaying writes *)

(** A store in which the writes to one key absorb each other and the
    writes to two keys commute once the first key is there: running a
    sequence of writes a second time changes nothing. *)
Section replay.
Context {K V St : Type} `{EqDecision K}.
Variable put : K -> V -> St -> St.
Variable has : K -> St -> Prop.
Hypothesis has_put : forall k v s, has k (put k v s).
Hypothesis has_put_other : forall k k' v s, has k s -> has k (put k' v s).
Hypothesis put_put : forall k v v' s, put k v (put k v' s) = put k v s.
Hypothesis put_comm : forall k k' v v' s,
  k <> k' -> has k s -> put k v (put k' v' s) = put k' v' (put k v s).

#[local] Abbreviation replay := (replay put).

Lemma replay_cons k v ops s : replay ((k, v) :: ops) s = replay ops (put k v s).
Proof. reflexivity. Qed.

Lemma has_replay ops : forall k s, has k s -> has k (replay ops s).
Proof.
  induction ops as [|[k1 v1] ops IH]; intros k s Hk; [exact Hk|].
  apply IH, has_put_other, Hk.
Qed.

Lemma replay_overwritten ops : forall k v s,
  has k s -> k ∈ map fst ops -> replay ops (put k v s) = replay ops s.
Proof.
  induction ops as [|[k1 v1] ops IH]; intros k v s Hk Hin.
  - apply elem_of_nil in Hin. contradiction.
  - simpl in *. apply elem_of_cons in Hin. destruct (decide (k1 = k)) as [->|Hne].
    + unfold replay. simpl. rewrite put_put. reflexivity.
    + destruct Hin as [->|Hin]; [congruence|]. unfold replay. simpl.
      rewrite <- (put_comm k k1) by (congruence || exact Hk).
      apply (IH k v (put k1 v1 s)); [apply has_put_other, Hk|exact Hin].
Qed.

Lemma replay_put_fresh ops : forall k v s,
  has k s -> k ∉ map fst ops -> replay ops (put k v s) = put k v (replay ops s).
Proof.
  induction ops as [|[k1 v1] ops IH]; intros k v s Hk Hin; [reflexivity|].
  simpl in Hin. apply not_elem_of_cons in Hin as [Hne Hin]. unfold replay. simpl.
  rewrite <- (put_comm k k1) by (congruence || exact Hk).
  apply (IH k v (put k1 v1 s)); [apply has_put_other, Hk|exact Hin].
Qed.

Lemma replay_idempotent ops : forall s, replay ops (replay ops s) = replay ops s.
Proof.
  induction ops as [|[k v] ops IH]; intros s; [reflexivity|].
  rewrite !replay_cons. set (x := put k v s).
  assert (Hx : has k (replay ops x)) by (apply has_replay, has_put).
  destruct (decide (k ∈ map fst ops)) as [Hin|Hin].
  - rewrite (replay_overwritten ops k v _ Hx Hin). apply IH.
  - rewrite <- (replay_put_fresh ops k v x (has_put k v s) Hin).
    unfold x. rewrite put_put. apply IH.
Qed.

End replay.

(** ** The OpenAPI document *)

Lemma has_put_operation k v s : has_operation k (put_operation k v s).
Proof.
  destruct k as [p m]. unfold has_operation, put_operation, obj_spread. simpl.
  rewrite obj_get_set_eq. eexists. split; [reflexivity|].
  rewrite obj_get_set_eq. eauto.
Qed.

Lemma has_put_operation_other k k' v s :
  has_operation k s -> has_operation k (put_operation k' v s).
Proof.
  destruct k as [p m], k' as [p' m']. unfold has_operation, put_operation, obj_spread.
  simpl. intros (item & Hitem & Hm). destruct (decide (p = p')) as [<-|Hp].
  - rewrite obj_get_set_eq, Hitem. simpl. eexists. split; [reflexivity|].
    destruct (decide (m = m')) as [<-|Hm'].
    + rewrite obj_get_set_eq. eauto.
    + rewrite obj_get_set_ne by exact Hm'. exact Hm.
  - rewrite obj_get_set_ne by exact Hp. eauto.
Qed.

Lemma put_operation_twice k v v' s :
  put_operation k v (put_operation k v' s) = put_operation k v s.
Proof.
  destruct k as [p m]. unfold put_operation, obj_spread. simpl.
  rewrite obj_get_set_eq. simpl. rewrite !obj_set_set_eq. reflexivity.
Qed.

Lemma put_operation_comm k k' v v' s :
  k <> k' -> has_operation k s ->
  put_operation k v (put_operation k' v' s) = put_operation k' v' (put_operation k v s).
Proof.
  destruct k as [p m], k' as [p' m']. unfold has_operation, put_operation, obj_spread.
  simpl. intros Hne (item & Hitem & Hm). destruct (decide (p = p')) as [<-|Hp].
  - assert (Hm' : m <> m') by congruence.
    rewrite !obj_get_set_eq, Hitem. simpl. rewrite !obj_set_set_eq.
    rewrite (obj_set_comm m m') by assumption. reflexivity.
  - rewrite obj_get_set_ne by exact Hp.
    rewrite (obj_get_set_ne p' p) by congruence.
    apply obj_set_comm; [exact Hp|rewrite Hitem; eauto].
Qed.

Lemma replay_operations_idempotent ops s :
  replay put_operation ops (replay put_operation ops s) = replay put_operation ops s.
Proof.
  apply (replay_idempotent put_operation has_operation).
  - exact has_put_operation.
  - exact has_put_operation_other.
  - exact put_operation_twice.
  - exact put_operation_comm.
Qed.

(** A writing of a key keeps the other keys. *)
Lemma replay_operations_keeps ops : forall p s,
  is_Some (obj_get p s) -> is_Some (obj_get p (replay put_operation ops s)).
Proof.
  induction ops as [|[[p' m'] v] ops IH]; intros p s Hp; [exact Hp|].
  rewrite replay_cons. apply IH. unfold put_operation. simpl.
  destruct (decide (p = p')) as [->|Hne].
  - rewrite obj_get_set_eq. eauto.
  - rewrite obj_get_set_ne by exact Hne. exact Hp.
Qed.

(** The run over the registry adds the operations of the routes, in the
    order of the registry, to the document it starts from. *)
Lemma forEachRoute_operations w slots : forall doc,
  Router.forEachRoute w slots doc =
    (ops ← operations w slots;
     Ok {| info_title := info_title doc;
           paths := replay put_operation ops (paths doc) |}).
Proof.
  induction slots as [|[route|] slots IH]; intros doc; simpl.
  - destruct doc; reflexivity.
  - destruct (config_of w route) as [cfg|]; [|reflexivity]. simpl.
    destruct (Route._getOpenAPIOperation cfg) as [[[path m] op]|e]; [|reflexivity].
    simpl. rewrite IH. destruct (operations w slots); reflexivity.
  - apply IH.
Qed.

Lemma operations_ext w w' slots :
  configs w' = configs w -> instances w' = instances w ->
  operations w' slots = operations w slots.
Proof.
  intros Hc Hi. induction slots as [|[route|] slots IH]; simpl; [reflexivity| |exact IH].
  unfold config_of. rewrite Hc, Hi, IH. reflexivity.
Qed.

(** The operations of a registry that satisfies the invariant exist. *)
Lemma operations_defined w :
  registry_inv w -> exists ops, operations w (routes (router w)) = Ok ops.
Proof.
  intros Hinv.
  assert (H : forall slots,
             (forall l, Some l ∈ slots -> exists r, instances w !! l = Some r) ->
             exists ops, operations w slots = Ok ops).
  { induction slots as [|[route|] slots IH]; intros Hslots; simpl.
    - eauto.
    - destruct (Hslots route) as [r Hr]; [apply list_elem_of_here|].
      destruct (inv_instances w Hinv route r Hr) as [_ Hc].
      destruct (lookup_lt_is_Some_2 _ _ Hc) as [cfg Hcfg].
      unfold config_of. rewrite Hr. simpl. rewrite Hcfg.
      destruct (inv_schemas w Hinv _ _ Hcfg) as [[zi Hzi] [zo Hzo]].
      rewrite (_getOpenAPIOperation_defined cfg zi zo Hzi Hzo). simpl.
      destruct IH as [ops ->]; [|simpl; eauto].
      intros l Hl. apply Hslots. apply list_elem_of_further, Hl.
    - apply IH. intros l Hl. apply Hslots. apply list_elem_of_further, Hl. }
  apply H. intros l Hl. apply list_elem_of_lookup in Hl as [i Hi].
  destruct (inv_slots w Hinv i (lookup_lt_Some _ _ _ Hi)) as (l' & Hl' & Hlatest).
  rewrite Hi in Hl'. injection Hl' as <-.
  unfold latest_route in Hlatest. clear -Hlatest.
  assert (G : forall insts base, latest_from base i insts = Some l ->
                exists r, insts !! (l - base) = Some r /\ base <= l).
  { induction insts as [|x insts IHi]; intros base Hb; [discriminate|]. simpl in Hb.
    destruct (latest_from (S base) i insts) eqn:Hrest.
    - injection Hb as ->. destruct (IHi (S base) Hrest) as (r & Hr & Hle).
      exists r. split; [|lia]. replace (l - base) with (S (l - S base)) by lia. exact Hr.
    - destruct (decide (updater x = i)); [|discriminate]. injection Hb as ->.
      exists x. rewrite Nat.sub_diag. split; [reflexivity|lia]. }
  destruct (G _ _ Hlatest) as (r & Hr & _). rewrite Nat.sub_0_r in Hr. eauto.
Qed.

(** C8, as amended. Generating the OpenAPI document twice without a
    change of the registry in between yields the same document.  For the
    registry of every start-up script the generation succeeds.  It leaves
    the registry as it is, gives the document the name of the router as its
    title, and keeps every path the builder already holds: the document is
    a function of the route list, the route and configuration objects, the
    name of the router and the document of the builder before the
    generation. *)
Theorem generateOpenApi_idempotent :
  (forall w w',
      Router._generateOpenApi w = Ok w' ->
      Router._generateOpenApi w' = Ok w'
      /\ configs w' = configs w /\ instances w' = instances w
      /\ routes (router w') = routes (router w)
      /\ router_config (router w') = router_config (router w)
      /\ info_title (Router._getOpenApiSpec w') = name (router_config (router w))
      /\ (forall p, is_Some (obj_get p (paths (Router._getOpenApiSpec w))) ->
                    is_Some (obj_get p (paths (Router._getOpenApiSpec w')))))
  /\ (forall rc script w,
        run script (new_Router rc) = Some w ->
        exists w', Router._generateOpenApi w = Ok w')
  /\ (forall w1 w2 w1' w2',
        configs w1 = configs w2 -> instances w1 = instances w2 ->
        routes (router w1) = routes (router w2) ->
        name (router_config (router w1)) = name (router_config (router w2)) ->
        openApiBuilder (router w1) = openApiBuilder (router w2) ->
        Router._generateOpenApi w1 = Ok w1' ->
        Router._generateOpenApi w2 = Ok w2' ->
        Router._getOpenApiSpec w1' = Router._getOpenApiSpec w2').
Proof.
  split; [|split].
  - intros w w'. unfold Router._generateOpenApi. rewrite forEachRoute_operations.
    destruct (operations w (routes (router w))) as [ops|e] eqn:Hops; [|discriminate].
    simpl. intros Hw. injection Hw as <-. simpl.
    split; [|split; [|split; [|split; [|split; [|split]]]]]; try reflexivity.
    + rewrite forEachRoute_operations.
      rewrite (operations_ext w (set_openApiBuilder _ w)) by reflexivity.
      rewrite Hops. simpl. rewrite replay_operations_idempotent. reflexivity.
    + intros p Hp. apply replay_operations_keeps, Hp.
  - intros rc script w Hrun.
    destruct (run_inv script _ _ (registry_inv_new rc) Hrun) as [Hinv _].
    destruct (operations_defined w Hinv) as [ops Hops].
    unfold Router._generateOpenApi. rewrite forEachRoute_operations, Hops. simpl. eauto.
  - intros w1 w2 w1' w2' Hc Hi Hr Hn Hb.
    unfold Router._generateOpenApi. rewrite !forEachRoute_operations.
    rewrite (operations_ext w2 w1), Hr, Hn, Hb by assumption.
    destruct (operations w2 (routes (router w2))); [|discriminate]. simpl.
    intros H1 H2. injection H1 as <-. injection H2 as <-. reflexivity.
Qed.

(** ** The payload of a request *)


Section coercion.
Variable Number : JsValue -> spec_float.
Variable JSON_parse : JsValue -> Result JsValue.


Lemma obj_get_properties props key :
  default VUndefined
    (obj_get key (map (fun kv : string * JsObject => (fst kv, VObj (snd kv))) props)) =
  match obj_get key props with Some p => VObj p | None => VUndefined end.
Proof.
  induction props as [|[k p] props IH]; simpl; [reflexivity|].
  destruct (String.eqb k key); [reflexivity|exact IH].
Qed.





End coercion.


(** * The properties at work *)

Section examples.
Import Examples.

Lemma z_named_reports_issues : zod_reports_issues z_named.
Proof.
  intros v issues. destruct v as [| |b|n|s|items|o]; simpl; try (intros [= <-]; discriminate).
  destruct (obj_get "name" o) as [[| |b|n|s|items|o']|]; intros [= <-]; discriminate.
Qed.

(** A [POST] of the body [{}] to [addTodo], whose input requires a [name]. *)
Lemma invalid_payload_witness :
  Route.requestHandler digits_Number literal_JSON_parse
    (installed addTodo) (snd addTodo) (request (VObj []) []) =
    {| response :=
         {| statusCode := 400;
            sent := Some (VObj [("message", VStr "Invalid request payload sent");
                                ("errors",
                                 VArr [invalid_type_issue "string" [VStr "name"]
                                         VUndefined])]) |};
       handler_calls := [];
       completion := Ok () |}
  /\ [invalid_type_issue "string" [VStr "name"] VUndefined] <> [].
Proof.
  apply (invalid_payload_is_rejected_with_400 digits_Number literal_JSON_parse
           (installed addTodo) (snd addTodo) (request (VObj []) [])
           {| config := 0; updater := 0; handler := Some greet |} greet
           (configured addTodo) z_named (VObj [])).
  - reflexivity.
  - reflexivity.
  - reflexivity.
  - reflexivity.
  - exact z_named_reports_issues.
  - reflexivity.
  - reflexivity.
Defined.

(** The handler of [addTodo] throws the string "boom". *)
Lemma handler_failure_witness :
  Route.requestHandler digits_Number literal_JSON_parse
    (installed (addTodo_throwing (VStr "boom"))) (snd (addTodo_throwing (VStr "boom")))
    (request (VObj [("name", VStr "x")]) []) =
    {| response :=
         {| statusCode := 500; sent := Some (VObj [("message", VStr "boom")]) |};
       handler_calls :=
         [(new_Context (request (VObj [("name", VStr "x")]) []),
           VObj [("name", VStr "x")])];
       completion := Ok () |}.
Proof.
  apply (handler_failure_is_answered_with_500 digits_Number literal_JSON_parse
           (installed (addTodo_throwing (VStr "boom")))
           (snd (addTodo_throwing (VStr "boom")))
           (request (VObj [("name", VStr "x")]) [])
           {| config := 0; updater := 0; handler := Some (throws (VStr "boom")) |}
           (throws (VStr "boom")) (configured (addTodo_throwing (VStr "boom")))
           z_named (VObj [("name", VStr "x")]) (VObj [("name", VStr "x")])
           (VStr "boom")).
  - reflexivity.
  - reflexivity.
  - reflexivity.
  - reflexivity.
  - reflexivity.
  - reflexivity.
  - reflexivity.
  - discriminate.
  - discriminate.
Defined.

(** C2 as stated fails: the handler of [addTodo] throws an object whose
    [message] field is the empty string, which is a string, and the body
    of the 500 response carries the fallback text, not that field. *)
Lemma empty_message_gets_the_fallback :
  typeof (VStr "") = "string"
  /\ processException (VObj [("message", VStr "")]) =
       Ok (VStr "Internal server error occured")
  /\ Route.requestHandler digits_Number literal_JSON_parse
       (installed (addTodo_throwing (VObj [("message", VStr "")])))
       (snd (addTodo_throwing (VObj [("message", VStr "")])))
       (request (VObj [("name", VStr "x")]) []) =
       {| response :=
            {| statusCode := 500;
               sent := Some (VObj [("message", VStr "Internal server error occured")]) |};
          handler_calls :=
            [(new_Context (request (VObj [("name", VStr "x")]) []),
              VObj [("name", VStr "x")])];
          completion := Ok () |}
  /\ VStr "Internal server error occured" <> VStr "".
Proof. repeat split; try reflexivity. discriminate. Qed.

(** The handler of [addTodo] throws [null]. *)
Lemma null_failure_witness :
  processException VNull = Throw TypeError
  /\ Route.requestHandler digits_Number literal_JSON_parse
       (installed (addTodo_throwing VNull)) (snd (addTodo_throwing VNull))
       (request (VObj [("name", VStr "x")]) []) =
       {| response := {| statusCode := 500; sent := None |};
          handler_calls :=
            [(new_Context (request (VObj [("name", VStr "x")]) []),
              VObj [("name", VStr "x")])];
          completion := Throw TypeError |}
  /\ (forall e', (exists m, processException e' = Ok m)
                 <-> e' <> VNull /\ e' <> VUndefined).
Proof.
  apply (null_failure_escapes_the_500_path digits_Number literal_JSON_parse
           (installed (addTodo_throwing VNull)) (snd (addTodo_throwing VNull))
           (request (VObj [("name", VStr "x")]) [])
           {| config := 0; updater := 0; handler := Some (throws VNull) |}
           (throws VNull) (configured (addTodo_throwing VNull))
           z_named (VObj [("name", VStr "x")]) (VObj [("name", VStr "x")]) VNull).
  - reflexivity.
  - reflexivity.
  - reflexivity.
  - reflexivity.
  - reflexivity.
  - reflexivity.
  - reflexivity.
  - left. reflexivity.
Defined.

(** [router.query("operate").input(..).fn(..)] and the same chain on a
    mutation: the defaults of the method and of the URL. *)
Lemma registration_defaults_witness :
  method (configured (built Router.query "operate" [CallInput z_named; CallFn greet])) = "get"
  /\ url (configured (built Router.query "operate" [CallInput z_named; CallFn greet]))
     = "/v1/operate"
  /\ method (configured (built Router.mutation "operate" [CallInput z_named; CallFn greet]))
     = "post"
  /\ url (configured (built Router.mutation "operate" [CallInput z_named; CallFn greet]))
     = "/v1/operate".
Proof.
  destruct (registration_defaults (new_Router server_config) "operate"
              [CallInput z_named; CallFn greet])
    as [(r & w & cfg & Hchain & _ & Hcfg & Hmethod & Hurl)
        (r' & w' & cfg' & Hchain' & _ & Hcfg' & Hmethod' & Hurl')].
  injection Hchain as <- <-. injection Hchain' as <- <-.
  injection Hcfg as <-. injection Hcfg' as <-.
  split; [exact (Hmethod eq_refl)|]. split; [exact (Hurl eq_refl)|].
  split; [exact (Hmethod' eq_refl)|exact (Hurl' eq_refl)].
Defined.

(** The registry after the start-up script: two registrations, three
    refinements, two slots. *)
Lemma refinements_overwrite_witness :
  length (routes (router started)) = 2
  /\ routes (router started) !! 0 = Some (Some 4)
  /\ latest_route 0 started = Some 4
  /\ (exists w, call (CallOutput z_any) 3 started = Some (5, w)
                /\ routes (router w) = [Some 4; Some 5]).
Proof.
  destruct (refinements_overwrite_their_slot server_config startup started eq_refl)
    as (Hlen & Hslots & Hcall).
  split; [exact Hlen|].
  destruct (Hslots 0) as (l & Hl & Hlatest); [vm_compute; lia|].
  injection Hl as <-. split; [reflexivity|]. split; [exact Hlatest|].
  destruct (Hcall 3 {| config := 1; updater := 1; handler := Some greet |}
              (CallOutput z_any) eq_refl eq_refl)
    as (this' & w & Hc & -> & _ & Hroutes & _).
  exists w. split; [exact Hc|exact Hroutes].
Defined.

(** The operation of the route value that the registry holds for
    [operate] after the start-up script. *)
Lemma operation_responses_witness :
  exists op responses error_response schema,
    Route._getOpenAPIOperation (configured (4, started)) = Ok ("/v1/operate", "get", op)
    /\ get_prop op "responses" = Ok (VObj responses)
    /\ obj_keys responses = ["200"; "400"; "500"]
    /\ obj_get "400" responses = Some error_response
    /\ obj_get "500" responses = Some error_response
    /\ get_prop error_response "description" = Ok (VStr "Standard error response object")
    /\ (content ← get_prop error_response "content";
        json ← get_prop content "application/json";
        get_prop json "schema") = Ok (VObj schema)
    /\ obj_get "type" schema = Some (VStr "object")
    /\ (properties ← get_prop (VObj schema) "properties";
        get_prop properties "message") = Ok (VObj [("type", VStr "string")])
    /\ (properties ← get_prop (VObj schema) "properties";
        errors ← get_prop properties "errors";
        get_prop errors "type") = Ok (VStr "array").
Proof.
  destruct (operation_responses server_config startup started 4 (configured (4, started))
              eq_refl eq_refl)
    as (zo & op & responses & error_response & Hzo & Hop & Hresponses & H400 & H500
        & Hshape & Hsuccess).
  injection Hzo as <-. destruct Hsuccess as [Hkeys _].
  exists op, responses, error_response. eexists.
  split; [exact Hop|]. split; [exact Hresponses|].
  split; [exact Hkeys|]. split; [exact H400|]. split; [exact H500|].
  rewrite Hshape. repeat split; reflexivity.
Defined.

(** C4 as stated fails: the query route [ping] has no declared input
    schema, and its operation advertises the success response under [200]
    and has no [204] response. *)
Lemma query_route_advertises_200 :
  zodSchemas_input (configured ping) = Some z_null
  /\ exists op responses,
       Route._getOpenAPIOperation (configured ping) = Ok ("/v1/ping", "get", op)
       /\ get_prop op "responses" = Ok (VObj responses)
       /\ obj_keys responses = ["200"; "400"; "500"]
       /\ obj_get "204" responses = None.
Proof. split; [reflexivity|]. eexists _, _. repeat split; reflexivity. Qed.

(** The query route [ping]: no request body, success under [200], and
    the request handler answers a call with 200 and the greeting. *)
Lemma query_without_input_witness :
  exists op responses,
    Route._getOpenAPIOperation (configured ping) = Ok ("/v1/ping", "get", op)
    /\ get_prop op "requestBody" =
         Ok (VObj [("description", VStr "Request object for ping");
                   ("content", VObj []);
                   ("required", VBool false)])
    /\ get_prop op "responses" = Ok (VObj responses)
    /\ obj_keys responses = ["200"; "400"; "500"]
    /\ Route.requestHandler digits_Number literal_JSON_parse
         (installed ping) (snd ping) (request VUndefined []) =
         {| response :=
              {| statusCode := 200; sent := Some (VObj [("greeting", VStr "Hi")]) |};
            handler_calls := [(new_Context (request VUndefined []), VNull)];
            completion := Ok () |}.
Proof.
  destruct (query_without_input_operation digits_Number literal_JSON_parse
              (new_Router server_config) "ping" [CallFn greet] eq_refl)
    as (r & w & cfg & zo & op & responses & reg
        & Hchain & Hcfg & Hzo & Hop & Hbody & Hresponses & _ & Hkeys & Hadd & _ & Hcall).
  injection Hchain as <- <-. injection Hcfg as <-. injection Hadd as <-.
  exists op, responses. split; [exact Hop|]. split; [exact Hbody|].
  split; [exact Hresponses|]. split; [exact (Hkeys eq_refl)|].
  exact (Hcall greet (request VUndefined []) (VObj [("greeting", VStr "Hi")])
           eq_refl eq_refl).
Defined.

(** C9 as stated fails: in [query("operate").fn(..).url("/greet")] the
    [fn] call is not the last call of the chain, and the registered route
    keeps its handler: a request is answered by it. *)
Lemma handler_survives_url_after_fn :
  routes (router (snd moved)) = [Some (fst moved)]
  /\ handler_of (snd moved) (fst moved) = Some greet
  /\ Route.requestHandler digits_Number literal_JSON_parse
       (installed moved) (snd moved) (request VUndefined []) =
       {| response :=
            {| statusCode := 200; sent := Some (VObj [("greeting", VStr "Hi")]) |};
          handler_calls := [(new_Context (request VUndefined []), VNull)];
          completion := Ok () |}.
Proof. repeat split; reflexivity. Qed.

(** [query("operate").fn(..).input(..)]: the registered route has no
    handler and a request throws. *)
Lemma refinement_after_fn_witness :
  routes (router (snd refined_late)) = [Some (fst refined_late)]
  /\ handler_of (snd refined_late) (fst refined_late) = None
  /\ Route.requestHandler digits_Number literal_JSON_parse
       (installed refined_late) (snd refined_late) (request VUndefined []) =
       {| response := new_response;
          handler_calls := [];
          completion := Throw (Error "Validator and query are not defined") |}.
Proof.
  destruct (refinement_after_fn_drops_the_handler digits_Number literal_JSON_parse
              [CallFn greet; CallInput z_named]
              (fst (Router.query "operate" (new_Router server_config)))
              (snd (Router.query "operate" (new_Router server_config)))
              (new_Route 0 0)
              (configured (Router.query "operate" (new_Router server_config)))
              eq_refl eq_refl eq_refl)
    as (this' & w' & Hchain & Hslot & _ & Hdrop & _).
  injection Hchain as <- <-.
  destruct (Hdrop [] greet [] (CallInput z_named) [] eq_refl eq_refl eq_refl)
    as [Hnone Hthrows].
  split; [reflexivity|]. split; [exact Hnone|].
  exact (Hthrows (installed refined_late) (request VUndefined []) eq_refl).
Defined.

(** C8 as stated fails: two stores with the same route list, route and
    configuration objects and router configuration, one of which
    generated its document before the URL of the route was set; the
    documents they generate differ. *)
Lemma document_depends_on_earlier_generations :
  configs relocated = configs relocated_late
  /\ instances relocated = instances relocated_late
  /\ routes (router relocated) = routes (router relocated_late)
  /\ router_config (router relocated) = router_config (router relocated_late)
  /\ (obj_keys <$> (paths <$> generated relocated)) = Some ["/b"]
  /\ (obj_keys <$> (paths <$> generated relocated_late)) = Some ["/v1/op"; "/b"]
  /\ generated relocated <> generated relocated_late.
Proof.
  repeat split; try reflexivity.
  intros H. apply (f_equal (fun d => obj_keys <$> (paths <$> d))) in H.
  vm_compute in H. discriminate H.
Qed.

(** Generating twice in the store after the start-up script. *)
Lemma generateOpenApi_witness :
  exists w,
    Router._generateOpenApi started = Ok w
    /\ Router._generateOpenApi w = Ok w
    /\ obj_keys (paths (Router._getOpenApiSpec w)) = ["/v1/operate"; "/v1/addTodo"]
    /\ info_title (Router._getOpenApiSpec w) = "myServer".
Proof.
  destruct generateOpenApi_idempotent as (Hidem & Htotal & _).
  destruct (Htotal server_config startup started eq_refl) as [w Hw].
  destruct (Hidem started w Hw) as (Hagain & _ & _ & _ & _ & Htitle & _).
  exists w. split; [exact Hw|]. split; [exact Hagain|]. split; [|exact Htitle].
  injection Hw as <-. reflexivity.
Defined.

(** C1. The code misses what the claim says on requests that it can
    receive.  The input schema of the query route [find] declares the
    properties [count] and [flag] and no other.  The query key [toString],
    which the schema does not declare, is not dropped: [properties[key]]
    finds the function that every object inherits, the text of the
    parameter is parsed as JSON and kept in the payload, and the handler
    is called with it.  With the query key [constructor] and a text that
    is no JSON, the handler run ends with a [SyntaxError] before any
    response.  The input schema of the query route [search] is
    [z.string()], whose JSON Schema has a type and no properties: a
    request with a query parameter is neither coerced nor passed on, the
    handler run ends with a [TypeError]. *)
Theorem inherited_query_keys_are_not_dropped :
  jsonSchema_input (configured find) =
    VObj [("type", VStr "object");
          ("properties", VObj [("count", VObj [("type", VStr "integer")]);
                               ("flag", VObj [("type", VStr "boolean")])]);
          ("required", VArr [VStr "count"; VStr "flag"]);
          ("additionalProperties", VBool false)]
  /\ method (configured find) = "get"
  /\ Route.extractPayload digits_Number literal_JSON_parse (installed find) (configured find)
       (request VUndefined
          [("count", VStr "42"); ("flag", VStr "true"); ("toString", VStr "1")]) =
     Ok (VObj [("count", VNum (binary_normalize 53 1024 42 0 false));
               ("flag", VBool true);
               ("toString", VNum (binary_normalize 53 1024 1 0 false))])
  /\ handler_calls
       (Route.requestHandler digits_Number literal_JSON_parse (installed find) (snd find)
          (request VUndefined
             [("count", VStr "42"); ("flag", VStr "true"); ("toString", VStr "1")])) =
     [(new_Context (request VUndefined
                      [("count", VStr "42"); ("flag", VStr "true"); ("toString", VStr "1")]),
       VObj [("count", VNum (binary_normalize 53 1024 42 0 false));
             ("flag", VBool true);
             ("toString", VNum (binary_normalize 53 1024 1 0 false))])]
  /\ Route.requestHandler digits_Number literal_JSON_parse (installed find) (snd find)
       (request VUndefined
          [("count", VStr "42"); ("flag", VStr "true"); ("constructor", VStr "abc")]) =
     {| response := new_response; handler_calls := []; completion := Throw SyntaxError |}
  /\ jsonSchema_input (configured search) = VObj [("type", VStr "string")]
  /\ method (configured search) = "get"
  /\ Route.requestHandler digits_Number literal_JSON_parse
       (installed search) (snd search) (request VUndefined [("a", VStr "1")]) =
     {| response := new_response; handler_calls := []; completion := Throw TypeError |}.
Proof. repeat split; reflexivity. Qed.



End examples.

(** * Further properties of the package *)

(** ** Request metadata *)

Lemma extractHeaders_fold rest : forall acc key,
  NoDup (obj_keys rest) ->
  obj_get key
    (fold_left (fun headers kv =>
       match snd kv with
       | VStr _ => obj_set (fst kv) (snd kv) headers
       | VArr items => obj_set (fst kv) (default VUndefined (head items)) headers
       | _ => headers
       end) rest acc) =
    match obj_get key rest ≫= header_value with
    | Some v => Some v
    | None => obj_get key acc
    end.
Proof.
  induction rest as [|[k v] rest IH]; intros acc key Hnodup; [reflexivity|].
  simpl in Hnodup. apply NoDup_cons in Hnodup as [Hk Hnodup].
  cbn [fold_left fst snd]. rewrite (IH _ key Hnodup). simpl.
  destruct (String.eqb_spec k key) as [->|Hne].
  - apply obj_get_None in Hk. rewrite Hk. simpl.
    destruct v; simpl; try reflexivity; apply obj_get_set_eq.
  - destruct (obj_get key rest ≫= header_value); [reflexivity|].
    destruct v; simpl; try reflexivity; apply obj_get_set_ne; congruence.
Qed.

(** X1. The metadata of the context of a request has, for every header
    whose value is a string, that string; for every header whose value is
    an array, the first element of the array ([undefined] when the array
    is empty); and nothing for any other header or name. *)
Theorem metadata_of_headers :
  forall req key,
    NoDup (obj_keys (req_headers req)) ->
    obj_get key (metadata (new_Context req)) =
      match obj_get key (req_headers req) with
      | Some (VStr s) => Some (VStr s)
      | Some (VArr items) => Some (default VUndefined (head items))
      | _ => None
      end.
Proof.
  intros req key Hnodup. unfold new_Context, extractHeadersFromRequest. simpl.
  rewrite (extractHeaders_fold _ [] key Hnodup). simpl.
  destruct (obj_get key (req_headers req)) as [[| |b|n|s|items|o]|]; reflexivity.
Qed.

(** ** The JSON Schemas of a route *)

Lemma obj_get_delete_eq {A : Type} k (o : list (string * A)) :
  obj_get k (obj_delete k o) = None.
Proof.
  induction o as [|[k0 v0] o IH]; [reflexivity|].
  unfold obj_delete in *. rewrite filter_cons. simpl.
  destruct (String.eqb_spec k0 k) as [->|Hne]; simpl.
  - destruct (decide (false = true)); [discriminate|exact IH].
  - destruct (decide (true = true)); [|congruence]. simpl.
    apply String.eqb_neq in Hne. rewrite Hne. exact IH.
Qed.

Lemma obj_get_delete_ne {A : Type} k k' (o : list (string * A)) :
  k' <> k -> obj_get k' (obj_delete k o) = obj_get k' o.
Proof.
  intros Hne. induction o as [|[k0 v0] o IH]; [reflexivity|].
  unfold obj_delete in *. rewrite filter_cons. simpl.
  destruct (String.eqb_spec k0 k) as [->|Hne0]; simpl.
  - destruct (decide (false = true)); [discriminate|].
    destruct (String.eqb_spec k k'); [congruence|exact IH].
  - destruct (decide (true = true)); [|congruence]. simpl. rewrite IH. reflexivity.
Qed.

(** X2. An [input] call on a route value of a store that a start-up
    script reaches returns a new route value whose configuration has the
    given schema as validator and, as JSON Schema, what [zodToJsonSchema]
    gives for it without the [$schema] marker and with every other
    property as it is; the output schema, its JSON Schema, the identifier,
    the kind, the method and the URL of the configuration are what they
    were before the call; the registry then holds the new route value.
    The same holds for [output], with the input schema left as it was. *)
Theorem refinement_stores_unmarked_schema :
  forall rc script w this r schema,
    run script (new_Router rc) = Some w ->
    instances w !! this = Some r ->
    exists before,
      config_of w this = Some before
      /\ (exists r' w' cfg o,
            Route.input schema this w = Some (r', w')
            /\ routes (router w') !! updater r = Some (Some r')
            /\ config_of w' r' = Some cfg
            /\ zodSchemas_input cfg = Some schema
            /\ jsonSchema_input cfg = VObj o
            /\ obj_get "$schema" o = None
            /\ (forall k, k <> "$schema" -> obj_get k o = obj_get k (zodToJsonSchema schema))
            /\ zodSchemas_output cfg = zodSchemas_output before
            /\ jsonSchema_output cfg = jsonSchema_output before
            /\ opId cfg = opId before /\ opType cfg = opType before
            /\ method cfg = method before /\ url cfg = url before)
      /\ (exists r' w' cfg o,
            Route.output schema this w = Some (r', w')
            /\ routes (router w') !! updater r = Some (Some r')
            /\ config_of w' r' = Some cfg
            /\ zodSchemas_output cfg = Some schema
            /\ jsonSchema_output cfg = VObj o
            /\ obj_get "$schema" o = None
            /\ (forall k, k <> "$schema" -> obj_get k o = obj_get k (zodToJsonSchema schema))
            /\ zodSchemas_input cfg = zodSchemas_input before
            /\ jsonSchema_input cfg = jsonSchema_input before
            /\ opId cfg = opId before /\ opType cfg = opType before
            /\ method cfg = method before /\ url cfg = url before).
Proof.
  intros rc script w this r schema Hrun Hthis.
  destruct (run_inv script _ _ (registry_inv_new rc) Hrun) as [Hinv _].
  destruct (inv_instances w Hinv this r Hthis) as [Hu Hc].
  destruct (lookup_lt_is_Some_2 _ _ Hc) as [cfg Hcfg].
  exists cfg. split; [unfold config_of; rewrite Hthis; exact Hcfg|].
  split.
  - destruct (call_spec (CallInput schema) this w r cfg Hthis Hcfg)
      as (r' & w' & Hcall & Hconfigs & _ & _ & -> & Hinstances & Hroutes).
    simpl in Hcall. eexists _, w', _, _. split; [exact Hcall|].
    split; [rewrite Hroutes, (array_store_in_range _ _ _ Hu);
            apply list_lookup_insert_eq, Hu|].
    split.
    { unfold config_of. rewrite Hinstances, list_lookup_middle by reflexivity.
      simpl. rewrite Hconfigs. apply list_lookup_insert_eq, Hc. }
    split; [reflexivity|]. split; [reflexivity|].
    split; [apply obj_get_delete_eq|].
    split; [intros k Hk; apply obj_get_delete_ne, Hk|].
    repeat split; reflexivity.
  - destruct (call_spec (CallOutput schema) this w r cfg Hthis Hcfg)
      as (r' & w' & Hcall & Hconfigs & _ & _ & -> & Hinstances & Hroutes).
    simpl in Hcall. eexists _, w', _, _. split; [exact Hcall|].
    split; [rewrite Hroutes, (array_store_in_range _ _ _ Hu);
            apply list_lookup_insert_eq, Hu|].
    split.
    { unfold config_of. rewrite Hinstances, list_lookup_middle by reflexivity.
      simpl. rewrite Hconfigs. apply list_lookup_insert_eq, Hc. }
    split; [reflexivity|]. split; [reflexivity|].
    split; [apply obj_get_delete_eq|].
    split; [intros k Hk; apply obj_get_delete_ne, Hk|].
    repeat split; reflexivity.
Qed.

Lemma unmarked_call_config c cfg :
  unmarked_schema (jsonSchema_input cfg) /\ unmarked_schema (jsonSchema_output cfg) ->
  unmarked_schema (jsonSchema_input (call_config c cfg))
  /\ unmarked_schema (jsonSchema_output (call_config c cfg)).
Proof.
  intros [Hi Ho]. destruct c; simpl; split; try assumption;
    eexists; (split; [reflexivity|apply obj_get_delete_eq]).
Qed.

Lemma unmarked_exec s w w' :
  registry_inv w ->
  (forall c cfg, configs w !! c = Some cfg ->
     unmarked_schema (jsonSchema_input cfg) /\ unmarked_schema (jsonSchema_output cfg)) ->
  exec s w = Some w' ->
  forall c cfg, configs w' !! c = Some cfg ->
    unmarked_schema (jsonSchema_input cfg) /\ unmarked_schema (jsonSchema_output cfg).
Proof.
  intros Hinv Hw Hexec c cfg Hc.
  assert (Hnew : forall opType m u zi zo c0,
            (configs w ++ [{| opId := c0; opType := opType; method := m; url := u;
                              jsonSchema_input := VObj [("type", VStr "null")];
                              jsonSchema_output := VObj [];
                              zodSchemas_input := zi; zodSchemas_output := zo |}]) !! c
              = Some cfg ->
            unmarked_schema (jsonSchema_input cfg)
            /\ unmarked_schema (jsonSchema_output cfg)).
  { intros opType m u zi zo c0 H. apply lookup_app_Some in H as [H|[_ H]]; [exact (Hw _ _ H)|].
    destruct (c - length (configs w)) as [|n]; [|discriminate H].
    injection H as <-. split; eexists; split; reflexivity. }
  assert (Hnew' : forall opType m u zi zo c0,
            (configs w ++ [{| opId := c0; opType := opType; method := m; url := u;
                              jsonSchema_input := VObj [];
                              jsonSchema_output := VObj [("type", VStr "null")];
                              zodSchemas_input := zi; zodSchemas_output := zo |}]) !! c
              = Some cfg ->
            unmarked_schema (jsonSchema_input cfg)
            /\ unmarked_schema (jsonSchema_output cfg)).
  { intros opType m u zi zo c0 H. apply lookup_app_Some in H as [H|[_ H]]; [exact (Hw _ _ H)|].
    destruct (c - length (configs w)) as [|n]; [|discriminate H].
    injection H as <-. split; eexists; split; reflexivity. }
  destruct s as [opId|opId|this k]; simpl in Hexec.
  - injection Hexec as <-. simpl in Hc. exact (Hnew _ _ _ _ _ _ Hc).
  - injection Hexec as <-. simpl in Hc. exact (Hnew' _ _ _ _ _ _ Hc).
  - destruct (call k this w) as [[this' w1]|] eqn:Hcall; [|discriminate].
    injection Hexec as <-.
    destruct (call_lookup _ _ _ _ Hcall) as [r Hthis].
    destruct (inv_instances w Hinv this r Hthis) as [_ Hlt].
    destruct (lookup_lt_is_Some_2 _ _ Hlt) as [cfg0 Hcfg0].
    destruct (call_spec k this w r cfg0 Hthis Hcfg0)
      as (this1 & w2 & Hcall1 & Hconfigs & _).
    rewrite Hcall in Hcall1. injection Hcall1 as <- <-.
    rewrite Hconfigs in Hc.
    apply list_lookup_insert_Some in Hc as [(_ & <- & _)|[_ Hc]].
    + apply unmarked_call_config, (Hw _ _ Hcfg0).
    + exact (Hw _ _ Hc).
Qed.

Lemma unmarked_run script : forall w w',
  registry_inv w ->
  (forall c cfg, configs w !! c = Some cfg ->
     unmarked_schema (jsonSchema_input cfg) /\ unmarked_schema (jsonSchema_output cfg)) ->
  run script w = Some w' ->
  forall c cfg, configs w' !! c = Some cfg ->
    unmarked_schema (jsonSchema_input cfg) /\ unmarked_schema (jsonSchema_output cfg).
Proof.
  induction script as [|s script IH]; intros w w' Hinv Hw Hrun; simpl in Hrun.
  - injection Hrun as <-. exact Hw.
  - destruct (exec s w) as [w1|] eqn:Hexec; [|discriminate]. simpl in Hrun.
    apply (IH w1 w' (registry_inv_exec _ _ _ Hinv Hexec)); [|exact Hrun].
    exact (unmarked_exec s w w1 Hinv Hw Hexec).
Qed.

(** X3. In every store that a start-up script reaches, the JSON Schemas
    of the configuration of every route object, for the input and for the
    output, are objects without the [$schema] marker. *)
Theorem schemas_never_carry_the_marker :
  forall rc script w this cfg,
    run script (new_Router rc) = Some w ->
    config_of w this = Some cfg ->
    unmarked_schema (jsonSchema_input cfg) /\ unmarked_schema (jsonSchema_output cfg).
Proof.
  intros rc script w this cfg Hrun Hcfg.
  unfold config_of in Hcfg. destruct (instances w !! this) as [r|]; [|discriminate].
  simpl in Hcfg.
  apply (unmarked_run script (new_Router rc) w (registry_inv_new rc)) with (c := config r);
    [|exact Hrun|exact Hcfg].
  intros c cfg0 H. discriminate H.
Qed.

(** ** Route values of one operation *)

Lemma sharing_inv_new rc : sharing_inv (new_Router rc).
Proof. split; [reflexivity|]. intros l r H. discriminate H. Qed.

Lemma sharing_inv_exec s w w' :
  registry_inv w -> sharing_inv w -> exec s w = Some w' -> sharing_inv w'.
Proof.
  intros Hinv [Hlen Hshared] Hexec.
  assert (Hadd : forall cfg0, sharing_inv (snd (Router._addRoute cfg0 w))).
  { intros cfg0. pose proof (_addRoute_spec cfg0 w) as Hspec.
    destruct (Router._addRoute cfg0 w) as [q wq].
    destruct Hspec as (-> & Hinstances & Hconfigs & Hroutes & _ & _). simpl snd.
    split.
    - rewrite Hconfigs, Hroutes, !length_app, Hlen. reflexivity.
    - intros l r Hl. rewrite Hinstances in Hl.
      apply lookup_app_Some in Hl as [Hl|[_ Hl]]; [exact (Hshared l r Hl)|].
      destruct (l - length (instances w)) as [|n]; [|discriminate Hl].
      injection Hl as <-. simpl. exact Hlen. }
  destruct s as [opId|opId|this c]; simpl in Hexec.
  - injection Hexec as <-. apply Hadd.
  - injection Hexec as <-. apply Hadd.
  - destruct (call c this w) as [[this' w1]|] eqn:Hcall; [|discriminate].
    injection Hexec as <-.
    destruct (call_lookup _ _ _ _ Hcall) as [r Hthis].
    destruct (inv_instances w Hinv this r Hthis) as [Hu Hc].
    destruct (lookup_lt_is_Some_2 _ _ Hc) as [cfg Hcfg].
    destruct (call_spec c this w r cfg Hthis Hcfg)
      as (this1 & w2 & Hcall1 & Hconfigs & _ & _ & Hkind).
    rewrite Hcall in Hcall1. injection Hcall1 as <- <-.
    pose proof (Hshared this r Hthis) as Hr.
    destruct (is_refinement c); destruct Hkind as (_ & Hinstances & Hroutes); split.
    + rewrite Hconfigs, Hroutes, (array_store_in_range _ _ _ Hu), !length_insert.
      exact Hlen.
    + intros l r0 Hl. rewrite Hinstances in Hl.
      apply lookup_app_Some in Hl as [Hl|[_ Hl]]; [exact (Hshared l r0 Hl)|].
      destruct (l - length (instances w)) as [|n]; [|discriminate Hl].
      injection Hl as <-. exact Hr.
    + rewrite Hconfigs, Hroutes, length_insert. exact Hlen.
    + intros l r0 Hl. rewrite Hinstances in Hl.
      apply list_lookup_insert_Some in Hl as [(_ & <- & _)|[_ Hl]];
        [exact Hr|exact (Hshared l r0 Hl)].
Qed.

Lemma run_sharing script : forall w w',
  registry_inv w -> sharing_inv w -> run script w = Some w' -> sharing_inv w'.
Proof.
  induction script as [|s script IH]; intros w w' Hinv Hsh Hrun; simpl in Hrun.
  - injection Hrun as <-. exact Hsh.
  - destruct (exec s w) as [w1|] eqn:Hexec; [|discriminate]. simpl in Hrun.
    exact (IH w1 w' (registry_inv_exec _ _ _ Hinv Hexec)
              (sharing_inv_exec _ _ _ Hinv Hsh Hexec) Hrun).
Qed.

(** Everything a start-up script guarantees about the store it reaches. *)
Lemma reachable script rc w :
  run script (new_Router rc) = Some w -> registry_inv w /\ sharing_inv w.
Proof.
  intros Hrun. split.
  - exact (proj1 (run_inv script _ _ (registry_inv_new rc) Hrun)).
  - exact (run_sharing script _ _ (registry_inv_new rc) (sharing_inv_new rc) Hrun).
Qed.

(** The route value made last for a slot is in the store and refers to
    that slot. *)
Lemma latest_route_lookup index w l :
  latest_route index w = Some l ->
  exists rl, instances w !! l = Some rl /\ updater rl = index.
Proof.
  unfold latest_route. intros Hlatest.
  assert (G : forall insts base, latest_from base index insts = Some l ->
                exists rl, insts !! (l - base) = Some rl /\ updater rl = index
                           /\ base <= l).
  { induction insts as [|x insts IHi]; intros base Hb; [discriminate|]. simpl in Hb.
    destruct (latest_from (S base) index insts) eqn:Hrest.
    - injection Hb as ->. destruct (IHi (S base) Hrest) as (rl & Hrl & Hupd & Hle).
      exists rl. split; [|split; [exact Hupd|lia]].
      replace (l - base) with (S (l - S base)) by lia. exact Hrl.
    - destruct (decide (updater x = index)) as [Hx|]; [|discriminate].
      injection Hb as ->. exists x. rewrite Nat.sub_diag. auto. }
  destruct (G _ _ Hlatest) as (rl & Hrl & Hupd & _).
  rewrite Nat.sub_0_r in Hrl. eauto.
Qed.

(** X4. The [url] and [method] calls reach the registered route through
    every route value of its operation, also through one that a later
    refinement has replaced in the registry: after the call the
    configuration of the route value that the registry holds for the
    operation has the new URL, respectively the new method, and the
    registry is as before. *)
Theorem setters_reach_the_registered_route :
  forall rc script w this r,
    run script (new_Router rc) = Some w ->
    instances w !! this = Some r ->
    exists l cfg,
      routes (router w) !! updater r = Some (Some l)
      /\ config_of w l = Some cfg
      /\ (forall u, exists w',
            Route.url u this w = Some (this, w')
            /\ config_of w' l = Some (with_url u cfg)
            /\ routes (router w') = routes (router w))
      /\ (forall m, exists w',
            Route.method m this w = Some (this, w')
            /\ config_of w' l = Some (with_method m cfg)
            /\ routes (router w') = routes (router w)).
Proof.
  intros rc script w this r Hrun Hthis.
  destruct (reachable script rc w Hrun) as [Hinv Hsh].
  destruct (inv_instances w Hinv this r Hthis) as [Hu Hc].
  destruct (inv_slots w Hinv _ Hu) as (l & Hl & Hlatest).
  destruct (lookup_lt_is_Some_2 _ _ Hc) as [cfg Hcfg].
  destruct (latest_route_lookup _ _ _ Hlatest) as (rl & Hrl & Hupd).
  assert (Hsame : config rl = config r).
  { rewrite (inv_shared w Hsh l rl Hrl), (inv_shared w Hsh this r Hthis). exact Hupd. }
  exists l, cfg. split; [exact Hl|].
  split; [unfold config_of; rewrite Hrl; simpl; rewrite Hsame; exact Hcfg|].
  split.
  - intros u. destruct (call_spec (CallUrl u) this w r cfg Hthis Hcfg)
      as (this' & w' & Hcall & Hconfigs & _ & _ & -> & Hinstances & Hroutes).
    exists w'. split; [exact Hcall|]. split; [|exact Hroutes].
    unfold config_of. rewrite Hinstances.
    destruct (decide (this = l)) as [->|Hne].
    + rewrite list_lookup_insert_eq by exact (lookup_lt_Some _ _ _ Hrl). simpl.
      rewrite Hconfigs. apply list_lookup_insert_eq, Hc.
    + rewrite list_lookup_insert_ne by exact Hne. rewrite Hrl. simpl.
      rewrite Hsame, Hconfigs. apply list_lookup_insert_eq, Hc.
  - intros m. destruct (call_spec (CallMethod m) this w r cfg Hthis Hcfg)
      as (this' & w' & Hcall & Hconfigs & _ & _ & -> & Hinstances & Hroutes).
    exists w'. split; [exact Hcall|]. split; [|exact Hroutes].
    unfold config_of. rewrite Hinstances.
    destruct (decide (this = l)) as [->|Hne].
    + rewrite list_lookup_insert_eq by exact (lookup_lt_Some _ _ _ Hrl). simpl.
      rewrite Hconfigs. apply list_lookup_insert_eq, Hc.
    + rewrite list_lookup_insert_ne by exact Hne. rewrite Hrl. simpl.
      rewrite Hsame, Hconfigs. apply list_lookup_insert_eq, Hc.
Qed.

(** A request handler reads the store only at its route object and at the
    configuration of that route object. *)
Lemma requestHandler_ext Number JSON_parse reg w w' req :
  instances w' !! reg_this reg = instances w !! reg_this reg ->
  (forall this, instances w !! reg_this reg = Some this ->
     configs w' !! config this = configs w !! config this) ->
  Route.requestHandler Number JSON_parse reg w' req =
  Route.requestHandler Number JSON_parse reg w req.
Proof.
  intros Hi Hc. unfold Route.requestHandler. rewrite Hi.
  destruct (instances w !! reg_this reg) as [this|]; [|reflexivity].
  rewrite (Hc this eq_refl). reflexivity.
Qed.

(** X5. A handler that [fn] attaches to a route value which the registry
    no longer holds is lost: the route value that the registry holds for
    the operation keeps the handler it had, or none, and every request to
    it is handled as before the call. *)
Theorem fn_on_replaced_route_is_lost :
  forall Number JSON_parse w this r l handlerFn,
    instances w !! this = Some r ->
    routes (router w) !! updater r = Some (Some l) ->
    l <> this ->
    exists w',
      Route.fn handlerFn this w = Some (this, w')
      /\ routes (router w') = routes (router w)
      /\ handler_of w' l = handler_of w l
      /\ handler_of w' this = Some handlerFn
      /\ forall reg req, reg_this reg = l ->
           Route.requestHandler Number JSON_parse reg w' req =
           Route.requestHandler Number JSON_parse reg w req.
Proof.
  intros Number JSON_parse w this r l handlerFn Hthis Hslot Hne.
  unfold Route.fn. rewrite Hthis. simpl. eexists. split; [reflexivity|].
  split; [reflexivity|]. unfold handler_of. simpl.
  split; [rewrite list_lookup_insert_ne by congruence; reflexivity|].
  split; [rewrite list_lookup_insert_eq by exact (lookup_lt_Some _ _ _ Hthis);
          reflexivity|].
  intros reg req <-. apply requestHandler_ext; simpl.
  - apply list_lookup_insert_ne. congruence.
  - reflexivity.
Qed.

(** X6. Operations are independent: a builder call on a route value of
    one operation, and the registration of a new operation, leave the
    configuration, the handler and the registry slot of every route value
    of another operation as they are, and every request to such a route
    value is handled as before. *)
Theorem operations_are_independent :
  forall Number JSON_parse rc script w l rl,
    run script (new_Router rc) = Some w ->
    instances w !! l = Some rl ->
    (forall this r c,
        instances w !! this = Some r ->
        updater r <> updater rl ->
        exists this' w',
          call c this w = Some (this', w')
          /\ config_of w' l = config_of w l
          /\ handler_of w' l = handler_of w l
          /\ routes (router w') !! updater rl = routes (router w) !! updater rl
          /\ forall reg req, reg_this reg = l ->
               Route.requestHandler Number JSON_parse reg w' req =
               Route.requestHandler Number JSON_parse reg w req)
    /\ (forall s w',
        is_registration s = true ->
        exec s w = Some w' ->
        config_of w' l = config_of w l
        /\ handler_of w' l = handler_of w l
        /\ routes (router w') !! updater rl = routes (router w) !! updater rl
        /\ forall reg req, reg_this reg = l ->
             Route.requestHandler Number JSON_parse reg w' req =
             Route.requestHandler Number JSON_parse reg w req).
Proof.
  intros Number JSON_parse rc script w l rl Hrun Hl.
  destruct (reachable script rc w Hrun) as [Hinv Hsh].
  destruct (inv_instances w Hinv l rl Hl) as [Hul Hcl].
  pose proof (lookup_lt_Some _ _ _ Hl) as Hlt.
  split.
  - intros this r c Hthis Hne.
    destruct (inv_instances w Hinv this r Hthis) as [Hu Hc].
    destruct (lookup_lt_is_Some_2 _ _ Hc) as [cfg Hcfg].
    destruct (call_spec c this w r cfg Hthis Hcfg)
      as (this' & w' & Hcall & Hconfigs & _ & _ & Hkind).
    assert (Hcne : config r <> config rl).
    { rewrite (inv_shared w Hsh this r Hthis), (inv_shared w Hsh l rl Hl). exact Hne. }
    assert (Hi : instances w' !! l = instances w !! l
                 /\ routes (router w') !! updater rl = routes (router w) !! updater rl).
    { destruct (is_refinement c); destruct Hkind as (_ & -> & ->).
      - split; [apply lookup_app_l, Hlt|].
        rewrite (array_store_in_range _ _ _ Hu). apply list_lookup_insert_ne, Hne.
      - split; [|reflexivity]. apply list_lookup_insert_ne. intros ->.
        rewrite Hthis in Hl. injection Hl as ->. congruence. }
    destruct Hi as [Hi Hr].
    assert (Hcf : configs w' !! config rl = configs w !! config rl).
    { rewrite Hconfigs. apply list_lookup_insert_ne, Hcne. }
    exists this', w'. split; [exact Hcall|].
    split; [unfold config_of; rewrite Hi, Hl; simpl; exact Hcf|].
    split; [unfold handler_of; rewrite Hi; reflexivity|].
    split; [exact Hr|].
    intros reg req <-. apply requestHandler_ext; [exact Hi|].
    intros this0 H0. rewrite Hl in H0. injection H0 as <-. exact Hcf.
  - intros s w' Hs Hexec.
    assert (Hadd : forall cfg0, w' = snd (Router._addRoute cfg0 w) ->
              instances w' !! l = instances w !! l
              /\ configs w' !! config rl = configs w !! config rl
              /\ routes (router w') !! updater rl = routes (router w) !! updater rl).
    { intros cfg0 ->. simpl.
      split; [apply lookup_app_l, Hlt|].
      split; [apply lookup_app_l, Hcl|apply lookup_app_l, Hul]. }
    assert (H : instances w' !! l = instances w !! l
                /\ configs w' !! config rl = configs w !! config rl
                /\ routes (router w') !! updater rl = routes (router w) !! updater rl).
    { destruct s as [opId|opId|this c]; try discriminate Hs; simpl in Hexec;
        injection Hexec as <-; eapply Hadd; reflexivity. }
    destruct H as (Hi & Hcf & Hr).
    split; [unfold config_of; rewrite Hi, Hl; simpl; exact Hcf|].
    split; [unfold handler_of; rewrite Hi; reflexivity|].
    split; [exact Hr|].
    intros reg req <-. apply requestHandler_ext; [exact Hi|].
    intros this0 H0. rewrite Hl in H0. injection H0 as <-. exact Hcf.
Qed.

(** ** Installing a route *)

(** X7. [addRoute] installs one handler at the URL of the route.  The
    verb is the method of the route when that is [get], [delete], [put] or
    [post], in exactly this spelling, and [post] for every other method.
    The payload of a request is [null] when the input schema is
    [z.null()]; else the body when the method is [post] or [put] in
    exactly this spelling; else it is taken from the query parameters:
    for a method in another spelling, such as [GET], the handler is
    installed under [post] and reads the query parameters. *)
Theorem addRoute_verb_and_payload_source :
  forall Number JSON_parse this w cfg zi app,
    config_of w this = Some cfg ->
    zodSchemas_input cfg = Some zi ->
    exists reg,
      Route.addRoute this w app = Ok (app ++ [reg])
      /\ reg_this reg = this
      /\ reg_path reg = url cfg
      /\ reg_verb reg ∈ ["get"; "delete"; "put"; "post"]
      /\ (method cfg ∈ ["get"; "delete"; "put"; "post"] -> reg_verb reg = method cfg)
      /\ (method cfg ∉ ["get"; "delete"; "put"; "post"] -> reg_verb reg = "post")
      /\ forall req,
           Route.extractPayload Number JSON_parse reg cfg req =
             if String.eqb (typeName zi) "ZodNull" then Ok VNull
             else if String.eqb (method cfg) "post" || String.eqb (method cfg) "put"
                  then Ok (req_body req)
                  else getPayloadFromParams Number JSON_parse (req_query req)
                         (jsonSchema_input cfg).
Proof.
  intros Number JSON_parse this w cfg zi app Hcfg Hzi.
  unfold Route.addRoute. rewrite Hcfg, Hzi. simpl. eexists. split; [reflexivity|].
  simpl. split; [reflexivity|]. split; [reflexivity|].
  split; [|split; [|split]].
  - repeat case_eqb; rewrite !elem_of_cons; auto 10.
  - rewrite !elem_of_cons, elem_of_nil. intros [->|[->|[->|[->|[]]]]]; reflexivity.
  - rewrite !not_elem_of_cons. intros (H1 & H2 & H3 & _).
    apply String.eqb_neq in H1, H2, H3. rewrite H1, H2, H3. reflexivity.
  - intros req. unfold Route.extractPayload. simpl.
    destruct (String.eqb (typeName zi) "ZodNull"); reflexivity.
Qed.

(** ** The outcome of a request *)

(** X8. The user handler is called with the payload as it was extracted
    from the request, whatever data the validation returns for it; when
    the handler returns, its result is sent with status 200. *)
Theorem handler_receives_the_extracted_payload :
  forall Number JSON_parse reg w req this h cfg schema payload data output,
    instances w !! reg_this reg = Some this ->
    handler this = Some h ->
    configs w !! config this = Some cfg ->
    zodSchemas_input cfg = Some schema ->
    Route.extractPayload Number JSON_parse reg cfg req = Ok payload ->
    safeParse schema payload = ParseSuccess data ->
    h (new_Context req) payload = Fulfilled output ->
    Route.requestHandler Number JSON_parse reg w req =
      {| response := {| statusCode := 200; sent := Some output |};
         handler_calls := [(new_Context req, payload)];
         completion := Ok () |}.
Proof.
  intros Number JSON_parse reg w req this h cfg schema payload data output
    Hthis Hh Hcfg Hschema Hpayload Hparse Hout.
  rewrite (requestHandler_invokes _ _ _ _ _ _ _ _ _ _ _
             Hthis Hh Hcfg Hschema Hpayload Hparse).
  unfold Route.invokeHandler. rewrite Hout. reflexivity.
Qed.

Lemma processException_string e m :
  processException e = Ok m -> exists s, m = VStr s.
Proof.
  destruct e as [| |b|n|s|items|o]; try discriminate;
    try (intros [= <-]; eauto; fail).
  unfold processException. simpl.
  destruct (obj_get "message" o) as [[| |b|n|s|items|o']|]; simpl;
    try (intros [= <-]; eauto; fail).
  - destruct b; intros [= <-]; eauto.
  - destruct n; intros [= <-]; eauto.
  - destruct (negb (String.eqb s "")); intros [= <-]; eauto.
Qed.

(** X9. Every run of a request handler, for every store, registration and
    request, ends in one of four ways: it throws before a response is
    sent (without a handler call, or after one call whose failure value
    [processException] cannot read); it answers 400 with the validation
    message without a handler call; it answers 200 with the result of one
    handler call; or it answers 500 with a body [{message}] whose message
    is a string, after one handler call. *)
Theorem requestHandler_outcomes :
  forall Number JSON_parse reg w req,
    let d := Route.requestHandler Number JSON_parse reg w req in
    (exists e, d = {| response := new_response; handler_calls := [];
                      completion := Throw e |})
    \/ (exists call, d = {| response := {| statusCode := 500; sent := None |};
                            handler_calls := [call];
                            completion := Throw TypeError |})
    \/ (exists errors,
          d = {| response :=
                   {| statusCode := 400;
                      sent := Some (VObj [("message", VStr "Invalid request payload sent");
                                          ("errors", errors)]) |};
                 handler_calls := [];
                 completion := Ok () |})
    \/ (exists call output,
          d = {| response := {| statusCode := 200; sent := Some output |};
                 handler_calls := [call];
                 completion := Ok () |})
    \/ (exists call s,
          d = {| response :=
                   {| statusCode := 500; sent := Some (VObj [("message", VStr s)]) |};
                 handler_calls := [call];
                 completion := Ok () |}).
Proof.
  intros Number JSON_parse reg w req. unfold Route.requestHandler. simpl.
  destruct (instances w !! reg_this reg) as [this|]; [|left; eauto].
  destruct (handler this) as [h|]; [|left; eauto].
  destruct (configs w !! config this) as [cfg|]; [|left; eauto].
  destruct (Route.extractPayload Number JSON_parse reg cfg req) as [payload|e];
    [|left; eauto].
  destruct (zodSchemas_input cfg) as [schema|]; simpl;
    [|right; right; left; eauto].
  destruct (safeParse schema payload) as [data|issues];
    [|right; right; left; eauto].
  unfold Route.invokeHandler.
  destruct (h (new_Context req) payload) as [output|e].
  - right; right; right; left. eauto.
  - destruct (processException e) as [m|t] eqn:Hm.
    + destruct (processException_string e m Hm) as [s ->].
      right; right; right; right. eauto.
    + right; left.
      assert (t = TypeError) as ->.
      { destruct e as [| |b|n|s|items|o]; try (injection Hm as <-; reflexivity);
          try discriminate Hm.
        unfold processException in Hm. simpl in Hm.
        destruct (truthy (default VUndefined (obj_get "message" o)) &&
                  String.eqb (typeof (default VUndefined (obj_get "message" o))) "string");
          discriminate Hm. }
      eauto.
Qed.

(** ** What the OpenAPI document holds *)

Lemma get_put_operation_eq k v s : get_operation k (put_operation k v s) = Some v.
Proof.
  destruct k as [p m]. unfold get_operation, put_operation, obj_spread. simpl.
  rewrite obj_get_set_eq. simpl. apply obj_get_set_eq.
Qed.

Lemma get_put_operation_ne k k' v s :
  k <> k' -> get_operation k (put_operation k' v s) = get_operation k s.
Proof.
  destruct k as [p m], k' as [p' m']. unfold get_operation, put_operation, obj_spread.
  simpl. intros Hne. destruct (decide (p = p')) as [<-|Hp].
  - rewrite obj_get_set_eq. simpl. rewrite obj_get_set_ne by congruence.
    destruct (obj_get p s); reflexivity.
  - rewrite obj_get_set_ne by exact Hp. reflexivity.
Qed.

Lemma replay_app {K V St : Type} (put : K -> V -> St -> St) ops1 ops2 s :
  replay put (ops1 ++ ops2) s = replay put ops2 (replay put ops1 s).
Proof. apply fold_left_app. Qed.

Lemma get_replay_untouched ops : forall k s,
  k ∉ map fst ops ->
  get_operation k (replay put_operation ops s) = get_operation k s.
Proof.
  induction ops as [|[k1 v1] ops IH]; intros k s Hk; [reflexivity|].
  simpl in Hk. apply not_elem_of_cons in Hk as [Hne Hk].
  rewrite replay_cons, (IH k _ Hk). apply get_put_operation_ne, Hne.
Qed.

Lemma _getOpenAPIOperation_path cfg p m op :
  Route._getOpenAPIOperation cfg = Ok (p, m, op) -> p = url cfg /\ m = method cfg.
Proof.
  unfold Route._getOpenAPIOperation.
  destruct (isZodTypeNull (zodSchemas_input cfg)); [|discriminate]. simpl.
  destruct (isZodTypeNull (zodSchemas_output cfg)); [|discriminate]. simpl.
  intros [= <- <- _]. split; reflexivity.
Qed.

(** The operations of a run come from the slots, one by one. *)
Lemma operations_keys w slots : forall ops,
  operations w slots = Ok ops ->
  forall k, k ∈ map fst ops ->
    exists j l cfg, slots !! j = Some (Some l) /\ config_of w l = Some cfg
                    /\ k = (url cfg, method cfg).
Proof.
  induction slots as [|[route|] slots IH]; intros ops Hops k Hk; simpl in Hops.
  - injection Hops as <-. apply elem_of_nil in Hk. contradiction.
  - destruct (config_of w route) as [cfg|] eqn:Hcfg; [|discriminate].
    destruct (Route._getOpenAPIOperation cfg) as [[[p m] op]|e] eqn:Hop;
      simpl in Hops; [|discriminate].
    destruct (operations w slots) as [rest|e]; simpl in Hops; [|discriminate].
    injection Hops as <-. simpl in Hk. apply elem_of_cons in Hk as [->|Hk].
    + destruct (_getOpenAPIOperation_path _ _ _ _ Hop) as [-> ->].
      exists 0, route, cfg. auto.
    + destruct (IH rest eq_refl k Hk) as (j & l & cfg' & Hj & Hc & ->).
      exists (S j), l, cfg'. auto.
  - destruct (IH ops Hops k Hk) as (j & l & cfg' & Hj & Hc & ->).
    exists (S j), l, cfg'. auto.
Qed.

Lemma operations_split w pre l post : forall ops,
  operations w (pre ++ Some l :: post) = Ok ops ->
  exists ops1 cfg op ops2,
    ops = ops1 ++ (url cfg, method cfg, op) :: ops2
    /\ config_of w l = Some cfg
    /\ Route._getOpenAPIOperation cfg = Ok (url cfg, method cfg, op)
    /\ operations w post = Ok ops2.
Proof.
  induction pre as [|[route|] pre IH]; intros ops Hops; simpl in Hops.
  - destruct (config_of w l) as [cfg|] eqn:Hcfg; [|discriminate].
    destruct (Route._getOpenAPIOperation cfg) as [[[p m] op]|e] eqn:Hop;
      simpl in Hops; [|discriminate].
    destruct (operations w post) as [rest|e]; simpl in Hops; [|discriminate].
    injection Hops as <-.
    destruct (_getOpenAPIOperation_path _ _ _ _ Hop) as [-> ->].
    exists [], cfg, op, rest. auto.
  - destruct (config_of w route) as [cfg|]; [|discriminate].
    destruct (Route._getOpenAPIOperation cfg) as [[[p m] op]|e];
      simpl in Hops; [|discriminate].
    destruct (operations w (pre ++ Some l :: post)) as [rest|e] eqn:Hrest;
      simpl in Hops; [|discriminate].
    injection Hops as <-.
    destruct (IH rest eq_refl) as (ops1 & cfg' & op' & ops2 & -> & H1 & H2 & H3).
    exists ((p, m, op) :: ops1), cfg', op', ops2. auto.
  - exact (IH ops Hops).
Qed.

(** X10. After [_generateOpenApi], the document holds, under the URL and
    the method of every route of the registry, the OpenAPI operation of
    that route, unless a later route of the registry has the same URL and
    the same method; whatever the builder held before. *)
Theorem document_holds_every_operation :
  forall w w' i l cfg,
    Router._generateOpenApi w = Ok w' ->
    routes (router w) !! i = Some (Some l) ->
    config_of w l = Some cfg ->
    (forall j l' cfg',
        i < j -> routes (router w) !! j = Some (Some l') ->
        config_of w l' = Some cfg' ->
        url cfg' = url cfg -> method cfg' <> method cfg) ->
    exists item op,
      Route._getOpenAPIOperation cfg = Ok (url cfg, method cfg, op)
      /\ obj_get (url cfg) (paths (Router._getOpenApiSpec w')) = Some item
      /\ obj_get (method cfg) item = Some op.
Proof.
  intros w w' i l cfg Hgen Hi Hcfg Hlast.
  unfold Router._generateOpenApi in Hgen. rewrite forEachRoute_operations in Hgen.
  destruct (operations w (routes (router w))) as [ops|e] eqn:Hops; [|discriminate].
  simpl in Hgen. injection Hgen as <-. simpl.
  rewrite <- (take_drop_middle _ _ _ Hi) in Hops.
  destruct (operations_split _ _ _ _ _ Hops)
    as (ops1 & cfg0 & op & ops2 & -> & Hcfg0 & Hop & Hpost).
  rewrite Hcfg in Hcfg0. injection Hcfg0 as <-.
  assert (Hget : get_operation (url cfg, method cfg)
                   (replay put_operation (ops1 ++ (url cfg, method cfg, op) :: ops2)
                      (paths (addTitle (name (router_config (router w)))
                                (openApiBuilder (router w))))) = Some op).
  { rewrite replay_app, replay_cons, get_replay_untouched;
      [apply get_put_operation_eq|].
    intros Hin. destruct (operations_keys _ _ _ Hpost _ Hin) as (j & l' & cfg' & Hj & Hc' & Hk).
    injection Hk as Hu Hm. rewrite lookup_drop in Hj.
    apply (Hlast (S i + j) l' cfg'); [lia|exact Hj|exact Hc'|congruence|congruence]. }
  unfold get_operation in Hget. simpl in Hget.
  destruct (obj_get (url cfg) _) as [item|] eqn:Hitem; [|discriminate].
  exists item, op. split; [exact Hop|]. split; [reflexivity|exact Hget].
Qed.

Lemma obj_keys_set {A : Type} k (v : A) o :
  obj_keys (obj_set k v o) =
    if decide (k ∈ obj_keys o) then obj_keys o else obj_keys o ++ [k].
Proof.
  unfold obj_keys. induction o as [|[k0 v0] o IH]; simpl.
  - destruct (decide (k ∈ [])) as [H|_]; [apply elem_of_nil in H; contradiction|].
    reflexivity.
  - destruct (String.eqb_spec k0 k) as [->|Hne]; simpl.
    + destruct (decide (k ∈ k :: map fst o)) as [_|H]; [reflexivity|].
      exfalso. apply H, list_elem_of_here.
    + rewrite IH.
      destruct (decide (k ∈ map fst o)) as [Hin|Hin];
        destruct (decide (k ∈ k0 :: map fst o)) as [Hin'|Hin']; try reflexivity.
      * exfalso. apply Hin', list_elem_of_further, Hin.
      * exfalso. apply elem_of_cons in Hin' as [->|Hin']; [congruence|exact (Hin Hin')].
Qed.

Lemma replay_operations_keys ops : forall s,
  NoDup (obj_keys s) ->
  NoDup (obj_keys (replay put_operation ops s))
  /\ forall p, p ∈ obj_keys (replay put_operation ops s)
               <-> p ∈ obj_keys s \/ p ∈ map (fun kv => fst (fst kv)) ops.
Proof.
  induction ops as [|[[p1 m1] v1] ops IH]; intros s Hs.
  - split; [exact Hs|]. intros p. simpl. rewrite elem_of_nil. tauto.
  - rewrite replay_cons.
    assert (Hput : NoDup (obj_keys (put_operation (p1, m1) v1 s))
                   /\ forall p, p ∈ obj_keys (put_operation (p1, m1) v1 s)
                                <-> p ∈ obj_keys s \/ p = p1).
    { unfold put_operation. simpl. rewrite obj_keys_set.
      destruct (decide (p1 ∈ obj_keys s)) as [Hin|Hin].
      - split; [exact Hs|]. intros p. split; [auto|]. intros [H| ->]; assumption.
      - split.
        + apply NoDup_app. split; [exact Hs|]. split; [|apply NoDup_singleton].
          intros x Hx Hx1. apply list_elem_of_singleton in Hx1 as ->. exact (Hin Hx).
        + intros p. rewrite elem_of_app, list_elem_of_singleton. reflexivity. }
    destruct Hput as [Hnd Hkeys].
    destruct (IH _ Hnd) as [Hnd' Hkeys']. split; [exact Hnd'|].
    intros p. rewrite Hkeys', Hkeys. simpl. rewrite elem_of_cons. tauto.
Qed.

Lemma call_keeps_router c this w this' w' :
  call c this w = Some (this', w') ->
  router_config (router w') = router_config (router w)
  /\ openApiBuilder (router w') = openApiBuilder (router w).
Proof.
  destruct c; simpl;
    unfold Route.method, Route.url, Route.input, Route.output, Route.fn;
    destruct (instances w !! this) as [r|]; simpl; try discriminate;
    try (destruct (configs w !! config r) as [cfg|]; simpl; try discriminate);
    intros [= <- <-]; split; reflexivity.
Qed.

(** A start-up script leaves the configuration of the router and the
    document of its builder as they are. *)
Lemma run_keeps_router script : forall w w',
  run script w = Some w' ->
  router_config (router w') = router_config (router w)
  /\ openApiBuilder (router w') = openApiBuilder (router w).
Proof.
  induction script as [|s script IH]; intros w w' Hrun; simpl in Hrun.
  - injection Hrun as <-. split; reflexivity.
  - destruct (exec s w) as [w1|] eqn:Hexec; [|discriminate]. simpl in Hrun.
    destruct (IH w1 w' Hrun) as [-> ->].
    destruct s as [opId|opId|this c]; simpl in Hexec.
    + injection Hexec as <-. split; reflexivity.
    + injection Hexec as <-. split; reflexivity.
    + destruct (call c this w) as [[this' w2]|] eqn:Hcall; [|discriminate].
      injection Hexec as <-. exact (call_keeps_router _ _ _ _ _ Hcall).
Qed.

(** X11. The first generation after a start-up script succeeds; the
    document has the name of the router as title, its path names are
    pairwise different, and they are exactly the URLs of the routes of
    the registry. *)
Theorem document_paths_are_the_route_urls :
  forall rc script w,
    run script (new_Router rc) = Some w ->
    exists w',
      Router._generateOpenApi w = Ok w'
      /\ info_title (Router._getOpenApiSpec w') = name rc
      /\ NoDup (obj_keys (paths (Router._getOpenApiSpec w')))
      /\ forall p, p ∈ obj_keys (paths (Router._getOpenApiSpec w'))
                   <-> exists i l cfg, routes (router w) !! i = Some (Some l)
                                       /\ config_of w l = Some cfg /\ url cfg = p.
Proof.
  intros rc script w Hrun.
  destruct (reachable script rc w Hrun) as [Hinv _].
  destruct (run_keeps_router script _ _ Hrun) as [Hrc Hdoc]. simpl in Hrc, Hdoc.
  destruct (operations_defined w Hinv) as [ops Hops].
  unfold Router._generateOpenApi. rewrite forEachRoute_operations, Hops. simpl.
  eexists. split; [reflexivity|]. simpl. rewrite Hrc, Hdoc. simpl.
  split; [reflexivity|].
  destruct (replay_operations_keys ops [] (NoDup_nil_2)) as [Hnd Hkeys].
  split; [exact Hnd|]. intros p. rewrite Hkeys. simpl. rewrite elem_of_nil.
  split.
  - intros [[]|Hin]. apply list_elem_of_fmap in Hin as ([[p' m'] op] & -> & Hin).
    destruct (operations_keys _ _ _ Hops (p', m')) as (j & l & cfg & Hj & Hc & Hk).
    { apply list_elem_of_fmap. exists (p', m', op). split; [reflexivity|exact Hin]. }
    injection Hk as -> ->. exists j, l, cfg. auto.
  - intros (i & l & cfg & Hi & Hc & <-). right.
    rewrite <- (take_drop_middle _ _ _ Hi) in Hops.
    destruct (operations_split _ _ _ _ _ Hops)
      as (ops1 & cfg0 & op & ops2 & -> & Hcfg0 & _ & _).
    rewrite Hc in Hcfg0. injection Hcfg0 as <-.
    rewrite map_app. apply elem_of_app. right. simpl. apply list_elem_of_here.
Qed.

(** ** Coercion without [JSON.parse] *)



(** ** Defaults of a mutation, identity of an operation *)

Lemma chain_config_opType calls : forall cfg, opType (chain_config calls cfg) = opType cfg.
Proof.
  induction calls as [|c calls IH]; intros cfg; [reflexivity|].
  change (chain_config (c :: calls) cfg) with (chain_config calls (call_config c cfg)).
  rewrite IH. destruct c; reflexivity.
Qed.

(** X13. A mutation route on which no schema and no method is declared
    has an operation that requires a request body of any shape and
    advertises the success response under [204] without body schema; it
    is installed under [post], every request body passes its validation,
    and a request whose handler returns is answered with status 200 and
    the result of the handler, which was called with the body. *)
Theorem mutation_without_schemas_operation :
  forall Number JSON_parse w opId calls,
    forallb (fun c => negb (is_refinement c) && negb (is_method c)) calls = true ->
    exists r w' cfg op responses reg,
      chain calls (fst (Router.mutation opId w)) (snd (Router.mutation opId w))
        = Some (r, w')
      /\ config_of w' r = Some cfg
      /\ Route._getOpenAPIOperation cfg = Ok (url cfg, "post", op)
      /\ get_prop op "requestBody" =
           Ok (VObj [("description", VStr ("Request object for " +:+ opId));
                     ("content", VObj [("application/json", VObj [("schema", VObj [])])]);
                     ("required", VBool true)])
      /\ get_prop op "responses" = Ok (VObj responses)
      /\ obj_keys responses = ["204"; "400"; "500"]
      /\ obj_get "204" responses =
           Some (VObj [("description", VStr ("Success response object for " +:+ opId))])
      /\ Route.addRoute r w' [] = Ok [reg]
      /\ reg_verb reg = "post"
      /\ (forall h req,
            handler_of w' r = Some h ->
            statusCode (response (Route.requestHandler Number JSON_parse reg w' req))
              <> 400%Z)
      /\ (forall h req output,
            handler_of w' r = Some h ->
            h (new_Context req) (req_body req) = Fulfilled output ->
            Route.requestHandler Number JSON_parse reg w' req =
              {| response := {| statusCode := 200; sent := Some output |};
                 handler_calls := [(new_Context req, req_body req)];
                 completion := Ok () |}).
Proof.
  intros Number JSON_parse w opId calls Hcalls. unfold Router.mutation.
  match goal with |- context [Router._addRoute ?c w] => set (cfg0 := c) end.
  destruct (registered_chain cfg0 calls w) as (r & w' & Hchain & _ & _ & Hcfg & _).
  assert (Hin : forallb (fun c => negb (is_input c)) calls = true).
  { clear -Hcalls. induction calls as [|c calls IH]; [reflexivity|]. simpl in *.
    apply andb_prop in Hcalls as [Hc H]. rewrite (IH H).
    destruct c; try discriminate Hc; reflexivity. }
  assert (Hout : forallb (fun c => negb (is_output c)) calls = true).
  { clear -Hcalls. induction calls as [|c calls IH]; [reflexivity|]. simpl in *.
    apply andb_prop in Hcalls as [Hc H]. rewrite (IH H).
    destruct c; try discriminate Hc; reflexivity. }
  assert (Hm : forallb (fun c => negb (is_method c)) calls = true).
  { clear -Hcalls. induction calls as [|c calls IH]; [reflexivity|]. simpl in *.
    apply andb_prop in Hcalls as [Hc H]. rewrite (IH H).
    destruct c; try discriminate Hc; reflexivity. }
  destruct (chain_config_input calls cfg0 Hin) as [Hzi Hji].
  destruct (chain_config_output calls cfg0 Hout) as [Hzo Hjo].
  pose proof (chain_config_method calls cfg0 Hm) as Hmethod.
  pose proof (chain_config_opId calls cfg0) as Hid.
  set (cfg := chain_config calls cfg0) in *. simpl in Hzi, Hji, Hzo, Hjo, Hmethod, Hid.
  pose proof (_getOpenAPIOperation_defined cfg z_any z_null Hzi Hzo) as Hop.
  rewrite Hmethod in Hop. simpl in Hop. unfold request_body, success_response in Hop.
  rewrite Hji, Hid in Hop.
  assert (Hadd : Route.addRoute r w' [] =
                 Ok [{| reg_verb := "post"; reg_path := url cfg; reg_this := r;
                        isBodyPresent := true; isRequestPayloadPresent := true |}]).
  { unfold Route.addRoute. rewrite Hcfg, Hzi, Hmethod. reflexivity. }
  assert (Hreq : forall h req,
            handler_of w' r = Some h ->
            Route.requestHandler Number JSON_parse
              {| reg_verb := "post"; reg_path := url cfg; reg_this := r;
                 isBodyPresent := true; isRequestPayloadPresent := true |} w' req =
            Route.invokeHandler h req (req_body req)).
  { intros h req Hh. unfold handler_of, config_of in Hh, Hcfg.
    destruct (instances w' !! r) as [this|] eqn:Hthis; [|discriminate].
    simpl in Hh, Hcfg.
    apply (requestHandler_invokes Number JSON_parse _ w' req this h cfg z_any
             (req_body req) (req_body req)); try assumption; reflexivity. }
  exists r, w', cfg. eexists _, _, _.
  split; [exact Hchain|]. split; [exact Hcfg|]. split; [exact Hop|].
  split; [reflexivity|]. split; [reflexivity|]. split; [reflexivity|].
  split; [reflexivity|]. split; [exact Hadd|]. split; [reflexivity|]. split.
  - intros h req Hh. rewrite (Hreq h req Hh). unfold Route.invokeHandler.
    destruct (h (new_Context req) (req_body req)); [discriminate|].
    destruct (processException e); discriminate.
  - intros h req output Hh Hfulfilled. rewrite (Hreq h req Hh).
    unfold Route.invokeHandler. rewrite Hfulfilled. reflexivity.
Qed.

(** X14. No builder call changes the identifier or the kind of an
    operation: after every chain of calls on the route that [query]
    returns, the OpenAPI operation of the route has the identifier given
    to [query] as [operationId] and [query] as [x-request-op-type]; the
    same holds for [mutation] with [mutation]. *)
Theorem operation_identity_is_fixed :
  forall w opId calls,
    (exists r w' cfg op,
        chain calls (fst (Router.query opId w)) (snd (Router.query opId w)) = Some (r, w')
        /\ config_of w' r = Some cfg
        /\ Route._getOpenAPIOperation cfg = Ok (url cfg, method cfg, op)
        /\ get_prop op "operationId" = Ok (VStr opId)
        /\ get_prop op "x-request-op-type" = Ok (VStr "query"))
    /\ (exists r w' cfg op,
        chain calls (fst (Router.mutation opId w)) (snd (Router.mutation opId w))
          = Some (r, w')
        /\ config_of w' r = Some cfg
        /\ Route._getOpenAPIOperation cfg = Ok (url cfg, method cfg, op)
        /\ get_prop op "operationId" = Ok (VStr opId)
        /\ get_prop op "x-request-op-type" = Ok (VStr "mutation")).
Proof.
  intros w opId calls. split; unfold Router.query, Router.mutation.
  - match goal with |- context [Router._addRoute ?c w] => set (cfg0 := c) end.
    destruct (registered_chain cfg0 calls w) as (r & w' & Hchain & _ & _ & Hcfg & _).
    destruct (chain_config_schemas calls cfg0) as [[zi Hzi] [zo Hzo]]; [simpl; eauto|].
    exists r, w', (chain_config calls cfg0). eexists.
    split; [exact Hchain|]. split; [exact Hcfg|].
    split; [exact (_getOpenAPIOperation_defined _ zi zo Hzi Hzo)|]. simpl.
    rewrite chain_config_opId, chain_config_opType. split; reflexivity.
  - match goal with |- context [Router._addRoute ?c w] => set (cfg0 := c) end.
    destruct (registered_chain cfg0 calls w) as (r & w' & Hchain & _ & _ & Hcfg & _).
    destruct (chain_config_schemas calls cfg0) as [[zi Hzi] [zo Hzo]]; [simpl; eauto|].
    exists r, w', (chain_config calls cfg0). eexists.
    split; [exact Hchain|]. split; [exact Hcfg|].
    split; [exact (_getOpenAPIOperation_defined _ zi zo Hzi Hzo)|]. simpl.
    rewrite chain_config_opId, chain_config_opType. split; reflexivity.
Qed.

(** ** The server *)

Lemma addRoute_app this w app :
  Route.addRoute this w app =
    (regs ← Route.addRoute this w []; Ok (app ++ regs)).
Proof.
  unfold Route.addRoute. destruct (config_of w this) as [cfg|]; [|reflexivity].
  destruct (isZodTypeNull (zodSchemas_input cfg)); reflexivity.
Qed.

Lemma addRoutes_installs w :
  registry_inv w ->
  forall slots app,
    (forall slot, slot ∈ slots -> exists l r, slot = Some l /\ instances w !! l = Some r) ->
    exists regs,
      Router.addRoutes w slots app = Ok (app ++ regs)
      /\ Forall2 (installs w) slots (operation_endpoint <$> regs).
Proof.
  intros Hinv. induction slots as [|slot slots IH]; intros app Hslots.
  - exists []. simpl. rewrite app_nil_r. split; [reflexivity|constructor].
  - destruct (Hslots slot) as (l & r & -> & Hr); [apply list_elem_of_here|].
    destruct (inv_instances w Hinv l r Hr) as [_ Hc].
    destruct (lookup_lt_is_Some_2 _ _ Hc) as [cfg Hcfg].
    destruct (inv_schemas w Hinv _ _ Hcfg) as [[zi Hzi] _].
    assert (Hconfig : config_of w l = Some cfg).
    { unfold config_of. rewrite Hr. exact Hcfg. }
    simpl. rewrite addRoute_app. unfold Route.addRoute. rewrite Hconfig, Hzi. simpl.
    match goal with |- context [Router.addRoutes w slots (app ++ [?reg])] =>
      destruct (IH (app ++ [reg])) as (regs & Hregs & Hall);
        [intros s Hs; apply Hslots, list_elem_of_further, Hs|];
      exists (reg :: regs) end.
    rewrite Hregs, <- app_assoc. split; [reflexivity|].
    rewrite fmap_cons. constructor; [|exact Hall].
    eexists l, cfg, _. split; [reflexivity|]. split; [exact Hconfig|].
    split; [unfold Route.addRoute; rewrite Hconfig, Hzi; reflexivity|].
    split; [reflexivity|]. split; reflexivity.
Qed.

Lemma registry_slots_live w :
  registry_inv w ->
  forall slot, slot ∈ routes (router w) ->
    exists l r, slot = Some l /\ instances w !! l = Some r.
Proof.
  intros Hinv slot Hslot. apply list_elem_of_lookup in Hslot as [i Hi].
  destruct (inv_slots w Hinv i (lookup_lt_Some _ _ _ Hi)) as (l & Hl & Hlatest).
  rewrite Hi in Hl. injection Hl as ->.
  destruct (latest_route_lookup _ _ _ Hlatest) as (r & Hr & _). eauto.
Qed.

Lemma _initialiseRoutes_installs w app :
  registry_inv w ->
  exists ops,
    Router._initialiseRoutes w app =
      Ok (app
          ++ [{| ep_verb := "get";
                 ep_path := baseUrl (router_config (router w)) +:+ "/openapi.json";
                 ep_handler := HSpec "application/json" (openApiBuilder (router w)) |};
              {| ep_verb := "get";
                 ep_path := baseUrl (router_config (router w)) +:+ "/openapi.yaml";
                 ep_handler := HSpec "application/yaml" (openApiBuilder (router w)) |}]
          ++ ops
          ++ [{| ep_verb := "all"; ep_path := "*";
                 ep_handler := HJson 400 (VObj [("message", VStr "No route found")]) |}])
    /\ Forall2 (installs w) (routes (router w)) ops.
Proof.
  intros Hinv.
  destruct (addRoutes_installs w Hinv (routes (router w)) [] (registry_slots_live w Hinv))
    as (regs & Hregs & Hall).
  exists (operation_endpoint <$> regs). unfold Router._initialiseRoutes.
  rewrite Hregs. simpl. rewrite <- !app_assoc. split; [reflexivity|exact Hall].
Qed.

(** X15. The constructor of the server replaces a missing or empty base
    URL by [/v1] and a missing, zero or NaN port by 3000, and keeps every
    other value.  Every route that is registered on the router of the
    server and given no URL has the URL made of that base URL, a slash
    and the identifier of the operation, whatever was registered
    before. *)
Theorem server_defaults_reach_the_routes :
  forall cfg script w opId calls,
    run script (Server.router (Server.create cfg)) = Some w ->
    forallb (fun c => negb (is_url c)) calls = true ->
    (exists r w' c,
        chain calls (fst (Router.query opId w)) (snd (Router.query opId w)) = Some (r, w')
        /\ config_of w' r = Some c
        /\ url c = Server.resolved_baseUrl cfg +:+ "/" +:+ opId)
    /\ (exists r w' c,
        chain calls (fst (Router.mutation opId w)) (snd (Router.mutation opId w))
          = Some (r, w')
        /\ config_of w' r = Some c
        /\ url c = Server.resolved_baseUrl cfg +:+ "/" +:+ opId)
    /\ Server.resolved_baseUrl cfg <> ""
    /\ (Server.baseUrl cfg = None \/ Server.baseUrl cfg = Some "" ->
        Server.resolved_baseUrl cfg = "/v1")
    /\ (forall b, Server.baseUrl cfg = Some b -> b <> "" ->
                  Server.resolved_baseUrl cfg = b)
    /\ Server.port (Server.config (Server.create cfg)) = Some (Server.resolved_port cfg)
    /\ truthy (VNum (Server.resolved_port cfg)) = true
    /\ (forall p, Server.port cfg = Some p -> truthy (VNum p) = true ->
                  Server.resolved_port cfg = p)
    /\ (Server.port cfg = None \/ (exists sign, Server.port cfg = Some (S754_zero sign))
        \/ Server.port cfg = Some S754_nan ->
        Server.resolved_port cfg = binary_normalize 53 1024 3000 0 false).
Proof.
  intros cfg script w opId calls Hrun Hcalls.
  destruct (run_keeps_router script _ _ Hrun) as [Hrc _]. simpl in Hrc.
  split; [|split].
  - unfold Router.query.
    match goal with |- context [Router._addRoute ?c w] =>
      destruct (registered_chain c calls w) as (r & w' & Hchain & _ & _ & Hcfg & _) end.
    eexists r, w', _. split; [exact Hchain|]. split; [exact Hcfg|].
    rewrite chain_config_url by exact Hcalls. simpl. rewrite Hrc. reflexivity.
  - unfold Router.mutation.
    match goal with |- context [Router._addRoute ?c w] =>
      destruct (registered_chain c calls w) as (r & w' & Hchain & _ & _ & Hcfg & _) end.
    eexists r, w', _. split; [exact Hchain|]. split; [exact Hcfg|].
    rewrite chain_config_url by exact Hcalls. simpl. rewrite Hrc. reflexivity.
  - unfold Server.resolved_baseUrl, Server.resolved_port.
    split; [|split; [|split; [|split; [|split; [|split]]]]].
    + destruct (Server.baseUrl cfg) as [b|]; [|discriminate]. simpl.
      destruct (String.eqb_spec b ""); simpl; [discriminate|assumption].
    + intros [->| ->]; reflexivity.
    + intros b -> Hb. simpl. apply String.eqb_neq in Hb. rewrite Hb. reflexivity.
    + reflexivity.
    + destruct (Server.port cfg) as [p|]; [|reflexivity].
      destruct (truthy (VNum p)) eqn:Hp; [exact Hp|reflexivity].
    + intros p -> Hp. rewrite Hp. reflexivity.
    + intros [->|[[sign ->]| ->]]; reflexivity.
Qed.

(** X16. [start] after a start-up script succeeds.  It registers, in
    this order, the [/info] route that answers with the name of the
    server, the two routes of the OpenAPI document under the base URL,
    one handler for every slot of the registry, in the order of the
    registry, for the route value the slot holds and at its URL, and last
    the route that answers every other request with 400 "No route
    found"; it installs the JSON body parser and listens on the port of
    the configuration. *)
Theorem start_installs_the_registry :
  forall cfg script w,
    run script (Server.router (Server.create cfg)) = Some w ->
    exists s' ops,
      Server.start (Server.with_router w (Server.create cfg)) = Ok s'
      /\ Server.app s' =
           [{| ep_verb := "get"; ep_path := "/info";
               ep_handler := HJson 200 (VObj [("name", VStr (Server.name cfg))]) |};
            {| ep_verb := "get";
               ep_path := Server.resolved_baseUrl cfg +:+ "/openapi.json";
               ep_handler := HSpec "application/json" (openApiBuilder (router w)) |};
            {| ep_verb := "get";
               ep_path := Server.resolved_baseUrl cfg +:+ "/openapi.yaml";
               ep_handler := HSpec "application/yaml" (openApiBuilder (router w)) |}]
           ++ ops
           ++ [{| ep_verb := "all"; ep_path := "*";
                  ep_handler := HJson 400 (VObj [("message", VStr "No route found")]) |}]
      /\ Forall2 (installs w) (routes (router w)) ops
      /\ Server.middleware s' = ["express.json"]
      /\ Server.listening s' = Some (Server.resolved_port cfg)
      /\ Server.routerObj s' = w.
Proof.
  intros cfg script w Hrun.
  destruct (reachable script _ w Hrun) as [Hinv _].
  destruct (run_keeps_router script _ _ Hrun) as [Hrc _]. simpl in Hrc.
  unfold Server.start. simpl.
  match goal with |- context [Router._initialiseRoutes w ?a] =>
    destruct (_initialiseRoutes_installs w a Hinv) as (ops & Hinit & Hall) end.
  rewrite Hinit. simpl. eexists _, ops. split; [reflexivity|]. simpl.
  rewrite Hrc. simpl. auto 10.
Qed.

(** X17. [start] serves the document as the builder of the router holds
    it at that moment, and does not generate it.  Started right after a
    start-up script, the server serves a document with the title of a new
    builder and without any path, whatever routes are registered; started
    after [_generateOpenApi], it serves the generated document, whose
    title is the name of the server. *)
Theorem start_serves_the_builder_document :
  forall cfg script w,
    run script (Server.router (Server.create cfg)) = Some w ->
    (exists s',
        Server.start (Server.with_router w (Server.create cfg)) = Ok s'
        /\ forall ep contentType doc,
             ep ∈ Server.app s' -> ep_handler ep = HSpec contentType doc ->
             doc = OpenApiBuilder_create /\ paths doc = [] /\ info_title doc = "app")
    /\ (exists w' s',
        Router._generateOpenApi w = Ok w'
        /\ Server.start (Server.with_router w' (Server.create cfg)) = Ok s'
        /\ forall ep contentType doc,
             ep ∈ Server.app s' -> ep_handler ep = HSpec contentType doc ->
             doc = Router._getOpenApiSpec w' /\ info_title doc = Server.name cfg).
Proof.
  intros cfg script w Hrun.
  destruct (reachable script _ w Hrun) as [Hinv _].
  destruct (run_keeps_router script _ _ Hrun) as [Hrc Hdoc]. simpl in Hrc, Hdoc.
  assert (Hserved : forall w0 ops ep contentType doc,
            Forall2 (installs w0) (routes (router w0)) ops ->
            ep ∈ ([{| ep_verb := "get"; ep_path := "/info";
                      ep_handler := HJson 200 (VObj [("name", VStr (Server.name cfg))]) |}]
                  ++ [{| ep_verb := "get";
                         ep_path := baseUrl (router_config (router w0)) +:+ "/openapi.json";
                         ep_handler := HSpec "application/json" (openApiBuilder (router w0)) |};
                      {| ep_verb := "get";
                         ep_path := baseUrl (router_config (router w0)) +:+ "/openapi.yaml";
                         ep_handler := HSpec "application/yaml" (openApiBuilder (router w0)) |}]
                  ++ ops
                  ++ [{| ep_verb := "all"; ep_path := "*";
                         ep_handler :=
                           HJson 400 (VObj [("message", VStr "No route found")]) |}]) ->
            ep_handler ep = HSpec contentType doc ->
            doc = openApiBuilder (router w0)).
  { intros w0 ops ep contentType doc Hall Hin Hep.
    rewrite !elem_of_app, !elem_of_cons, !elem_of_nil in Hin.
    destruct Hin as [[->|[]]|[[->|[->|[]]]|[Hin|[->|[]]]]]; simpl in Hep;
      try discriminate Hep; try (injection Hep as _ <-; reflexivity).
    apply list_elem_of_lookup in Hin as [i Hi].
    destruct (Forall2_lookup_r _ _ _ _ _ Hall Hi)
      as (slot & _ & l & c & reg & _ & _ & _ & _ & -> & _).
    discriminate Hep. }
  split.
  - unfold Server.start. simpl.
    match goal with |- context [Router._initialiseRoutes w ?a] =>
      destruct (_initialiseRoutes_installs w a Hinv) as (ops & Hinit & Hall) end.
    rewrite Hinit. simpl. eexists. split; [reflexivity|]. simpl.
    intros ep contentType doc Hin Hep.
    rewrite (Hserved w ops ep contentType doc Hall Hin Hep), Hdoc. auto.
  - destruct (operations_defined w Hinv) as [ops Hops].
    set (w' := set_openApiBuilder
                 {| info_title := name (router_config (router w));
                    paths := replay put_operation ops
                               (paths (openApiBuilder (router w))) |} w).
    assert (Hgen : Router._generateOpenApi w = Ok w').
    { unfold Router._generateOpenApi. rewrite forEachRoute_operations, Hops.
      reflexivity. }
    assert (Hinv' : registry_inv w').
    { destruct Hinv as [H1 H2 H3]. split; [exact H1|exact H2|exact H3]. }
    destruct (_initialiseRoutes_installs w'
                [{| ep_verb := "get"; ep_path := "/info";
                    ep_handler := HJson 200 (VObj [("name", VStr (Server.name cfg))]) |}]
                Hinv') as (eps & Hinit & Hall).
    exists w'. eexists. split; [exact Hgen|].
    unfold Server.start. simpl. rewrite Hinit. simpl. split; [reflexivity|]. simpl.
    intros ep contentType doc Hin Hep.
    rewrite (Hserved w' eps ep contentType doc Hall Hin Hep).
    split; [reflexivity|]. simpl. rewrite Hrc. reflexivity.
Qed.

(** * The further properties at work *)

Section more_examples.
Import Examples.

(** Pairwise different property names of a given object. *)
Ltac nodup_names :=
  repeat constructor; rewrite ?elem_of_cons, ?elem_of_nil; intuition discriminate.

(** A header with two values gives the first, an undefined header none. *)
Lemma metadata_witness :
  obj_get "accept" (metadata (new_Context with_headers)) = Some (VStr "text/html")
  /\ obj_get "x-empty" (metadata (new_Context with_headers)) = Some VUndefined
  /\ obj_get "x-none" (metadata (new_Context with_headers)) = None.
Proof.
  assert (Hnodup : NoDup (obj_keys (req_headers with_headers))) by nodup_names.
  split; [exact (metadata_of_headers with_headers "accept" Hnodup)|].
  split; [exact (metadata_of_headers with_headers "x-empty" Hnodup)|].
  exact (metadata_of_headers with_headers "x-none" Hnodup).
Defined.

(** [input] on the first route value of [operate] after the start-up
    script; the output schema of the operation stays [z.any()]. *)
Lemma refinement_stores_witness :
  exists r' w' cfg o,
    Route.input z_named 0 started = Some (r', w')
    /\ routes (router w') !! 0 = Some (Some r')
    /\ config_of w' r' = Some cfg
    /\ jsonSchema_input cfg = VObj o
    /\ obj_get "$schema" o = None
    /\ obj_get "type" o = Some (VStr "object")
    /\ zodSchemas_output cfg = Some z_any
    /\ jsonSchema_output cfg = VObj []
    /\ url cfg = "/v1/operate".
Proof.
  destruct (refinement_stores_unmarked_schema server_config startup started 0
              {| config := 0; updater := 0; handler := None |} z_named eq_refl eq_refl)
    as (before & Hbefore
        & (r' & w' & cfg & o & Hin & Hslot & Hcfg & _ & Hjson & Hmark & Hkeep
           & Hzo & Hjo & _ & _ & _ & Hurl) & _).
  assert (Hstarted : Some (configured (0, started)) = Some before) by exact Hbefore.
  injection Hstarted as <-.
  exists r', w', cfg, o. split; [exact Hin|]. split; [exact Hslot|].
  split; [exact Hcfg|]. split; [exact Hjson|]. split; [exact Hmark|].
  split; [rewrite Hkeep by discriminate; reflexivity|].
  split; [rewrite Hzo; reflexivity|]. split; [rewrite Hjo; reflexivity|].
  rewrite Hurl. reflexivity.
Defined.

Lemma schemas_witness :
  unmarked_schema (jsonSchema_input (configured (4, started)))
  /\ unmarked_schema (jsonSchema_output (configured (4, started))).
Proof.
  exact (schemas_never_carry_the_marker server_config startup started 4
           (configured (4, started)) eq_refl eq_refl).
Defined.

(** [url] on the first route value of [operate], which the registry no
    longer holds, sets the URL of the registered route value 4. *)
Lemma setters_witness :
  exists w',
    Route.url "/hello" 0 started = Some (0, w')
    /\ url <$> config_of w' 4 = Some "/hello"
    /\ routes (router w') = [Some 4; Some 3].
Proof.
  destruct (setters_reach_the_registered_route server_config startup started 0
              {| config := 0; updater := 0; handler := None |} eq_refl eq_refl)
    as (l & cfg & Hl & Hcfg & Hurl & _).
  injection Hl as <-. destruct (Hurl "/hello") as (w' & Hcall & Hcfg' & Hroutes).
  exists w'. split; [exact Hcall|]. split; [rewrite Hcfg'; reflexivity|exact Hroutes].
Defined.

(** [fn] on the first route value of [operate] after the start-up script. *)
Lemma fn_on_replaced_route_witness :
  exists w',
    Route.fn (throws VNull) 0 started = Some (0, w')
    /\ handler_of w' 4 = Some greet
    /\ Route.requestHandler digits_Number literal_JSON_parse (installed (4, started)) w'
         (request VUndefined [("name", VStr "x")]) =
       Route.requestHandler digits_Number literal_JSON_parse (installed (4, started)) started
         (request VUndefined [("name", VStr "x")]).
Proof.
  destruct (fn_on_replaced_route_is_lost digits_Number literal_JSON_parse started 0
              {| config := 0; updater := 0; handler := None |} 4 (throws VNull)
              eq_refl eq_refl)
    as (w' & Hfn & _ & Hh & _ & Hreq); [discriminate|].
  exists w'. split; [exact Hfn|]. split; [exact Hh|].
  exact (Hreq (installed (4, started)) _ eq_refl).
Defined.

(** A [url] call on [operate] and the registration of a third operation
    leave [addTodo] alone. *)
Lemma operations_independent_witness :
  (exists w', call (CallUrl "/x") 4 started = Some (4, w')
              /\ config_of w' 3 = config_of started 3
              /\ handler_of w' 3 = Some greet)
  /\ config_of (snd (Router.query "third" started)) 3 = config_of started 3.
Proof.
  destruct (operations_are_independent digits_Number literal_JSON_parse
              server_config startup started 3
              {| config := 1; updater := 1; handler := Some greet |} eq_refl eq_refl)
    as [Hcalls Hregs].
  split.
  - destruct (Hcalls 4 {| config := 0; updater := 0; handler := Some greet |}
                (CallUrl "/x") eq_refl)
      as (this' & w' & Hcall & Hcfg & Hh & _); [discriminate|].
    assert (this' = 4) as -> by (injection Hcall as <- _; reflexivity).
    exists w'. split; [exact Hcall|]. split; [exact Hcfg|exact Hh].
  - exact (proj1 (Hregs (SQuery "third") _ eq_refl eq_refl)).
Defined.

(** The method [GET] in capitals: the handler is installed under [post]
    and takes the payload from the query parameters, not from the body. *)
Lemma addRoute_witness :
  exists reg,
    Route.addRoute (fst shouted) (snd shouted) [] = Ok [reg]
    /\ reg_verb reg = "post"
    /\ Route.extractPayload digits_Number literal_JSON_parse reg (configured shouted)
         (request (VObj [("name", VStr "body")]) [("name", VStr "query")]) =
       Ok (VObj [("name", VStr "query")]).
Proof.
  destruct (addRoute_verb_and_payload_source digits_Number literal_JSON_parse
              (fst shouted) (snd shouted) (configured shouted) z_named [] eq_refl eq_refl)
    as (reg & Hadd & _ & _ & _ & _ & Hpost & Hpayload).
  exists reg. split; [exact Hadd|]. split.
  - apply Hpost. rewrite !not_elem_of_cons. repeat split; try discriminate.
    apply not_elem_of_nil.
  - rewrite Hpayload. reflexivity.
Defined.

(** The validation of [addTodo] returns the body without the property it
    does not know; the handler is called with the body as it came. *)
Lemma handler_payload_witness :
  safeParse z_named (VObj [("name", VStr "x"); ("extra", VBool true)])
    = ParseSuccess (VObj [("name", VStr "x")])
  /\ Route.requestHandler digits_Number literal_JSON_parse (installed addTodo) (snd addTodo)
       (request (VObj [("name", VStr "x"); ("extra", VBool true)]) []) =
     {| response := {| statusCode := 200; sent := Some (VObj [("greeting", VStr "Hi")]) |};
        handler_calls :=
          [(new_Context (request (VObj [("name", VStr "x"); ("extra", VBool true)]) []),
            VObj [("name", VStr "x"); ("extra", VBool true)])];
        completion := Ok () |}.
Proof.
  split; [reflexivity|].
  apply (handler_receives_the_extracted_payload digits_Number literal_JSON_parse
           (installed addTodo) (snd addTodo)
           (request (VObj [("name", VStr "x"); ("extra", VBool true)]) [])
           {| config := 0; updater := 0; handler := Some greet |} greet
           (configured addTodo) z_named
           (VObj [("name", VStr "x"); ("extra", VBool true)])
           (VObj [("name", VStr "x")]) (VObj [("greeting", VStr "Hi")]));
    reflexivity.
Defined.

(** The document generated after the start-up script holds the operation
    of [operate] under its URL and method. *)
Lemma document_holds_witness :
  exists w' item op,
    Router._generateOpenApi started = Ok w'
    /\ obj_get "/v1/operate" (paths (Router._getOpenApiSpec w')) = Some item
    /\ obj_get "get" item = Some op
    /\ get_prop op "operationId" = Ok (VStr "operate").
Proof.
  assert (Hgen : exists w', Router._generateOpenApi started = Ok w')
    by (vm_compute; eexists; reflexivity).
  destruct Hgen as [w' Hgen].
  destruct (document_holds_every_operation started w' 0 4 (configured (4, started))
              Hgen eq_refl eq_refl) as (item & op & Hop & Hitem & Hget).
  - intros j l' cfg' Hj Hl' Hcfg' Hurl.
    destruct j as [|[|j]]; [lia| |discriminate Hl'].
    assert (l' = 3) as -> by (injection Hl' as <-; reflexivity).
    assert (cfg' = configured (3, started)) as ->
      by (injection Hcfg' as <-; reflexivity).
    discriminate Hurl.
  - exists w', item, op. split; [exact Hgen|]. split; [exact Hitem|].
    split; [exact Hget|]. injection Hop as <-. reflexivity.
Defined.

(** The document generated after the start-up script. *)
Lemma document_paths_witness :
  exists w',
    Router._generateOpenApi started = Ok w'
    /\ info_title (Router._getOpenApiSpec w') = "myServer"
    /\ "/v1/addTodo" ∈ obj_keys (paths (Router._getOpenApiSpec w'))
    /\ "/v1/greet" ∉ obj_keys (paths (Router._getOpenApiSpec w')).
Proof.
  destruct (document_paths_are_the_route_urls server_config startup started eq_refl)
    as (w' & Hgen & Htitle & _ & Hpaths).
  exists w'. split; [exact Hgen|]. split; [exact Htitle|]. split.
  - apply Hpaths. exists 1, 3, (configured (3, started)).
    split; [reflexivity|]. split; reflexivity.
  - intros (i & l & cfg & Hl & Hcfg & Hurl)%Hpaths.
    destruct i as [|[|i]]; [| |discriminate Hl].
    + assert (l = 4) as -> by (injection Hl as <-; reflexivity).
      assert (cfg = configured (4, started)) as ->
        by (injection Hcfg as <-; reflexivity).
      discriminate Hurl.
    + assert (l = 3) as -> by (injection Hl as <-; reflexivity).
      assert (cfg = configured (3, started)) as ->
        by (injection Hcfg as <-; reflexivity).
      discriminate Hurl.
Defined.


(** [router.mutation("addTodo").fn(..)]: a body that is a string passes. *)
Lemma mutation_without_schemas_witness :
  exists r w' reg,
    chain [CallFn greet] (fst (Router.mutation "addTodo" (new_Router server_config)))
      (snd (Router.mutation "addTodo" (new_Router server_config))) = Some (r, w')
    /\ Route.addRoute r w' [] = Ok [reg]
    /\ reg_verb reg = "post"
    /\ Route.requestHandler digits_Number literal_JSON_parse reg w'
         (request (VStr "anything") []) =
       {| response := {| statusCode := 200; sent := Some (VObj [("greeting", VStr "Hi")]) |};
          handler_calls := [(new_Context (request (VStr "anything") []), VStr "anything")];
          completion := Ok () |}.
Proof.
  destruct (mutation_without_schemas_operation digits_Number literal_JSON_parse
              (new_Router server_config) "addTodo" [CallFn greet] eq_refl)
    as (r & w' & cfg & op & responses & reg & Hchain & _ & _ & _ & _ & _ & _
        & Hadd & Hverb & _ & Hcall).
  exists r, w', reg. split; [exact Hchain|]. split; [exact Hadd|].
  split; [exact Hverb|].
  assert (Hbuilt : Some (built Router.mutation "addTodo" [CallFn greet]) = Some (r, w'))
    by exact Hchain.
  injection Hbuilt as <- <-.
  exact (Hcall greet (request (VStr "anything") []) _ eq_refl eq_refl).
Defined.

(** A server created with an empty base URL: a route registered after the
    start-up script is at [/v1/third]. *)
Lemma server_defaults_witness :
  Server.resolved_baseUrl server = "/v1"
  /\ Server.resolved_port server = binary_normalize 53 1024 3000 0 false
  /\ exists r w' c,
       chain [CallFn greet] (fst (Router.query "third" server_started))
         (snd (Router.query "third" server_started)) = Some (r, w')
       /\ config_of w' r = Some c
       /\ url c = "/v1/third".
Proof.
  destruct (server_defaults_reach_the_routes server startup server_started "third"
              [CallFn greet] eq_refl eq_refl)
    as ((r & w' & c & Hchain & Hcfg & Hurl) & _ & _ & Hbase & _ & _ & _ & _ & Hport).
  split; [apply Hbase; right; reflexivity|].
  split; [apply Hport; left; reflexivity|].
  exists r, w', c. split; [exact Hchain|]. split; [exact Hcfg|].
  rewrite Hurl, Hbase by (right; reflexivity). reflexivity.
Defined.

(** The server after the start-up script: six routes, port 3000. *)
Lemma start_installs_witness :
  exists s',
    Server.start (Server.with_router server_started (Server.create server)) = Ok s'
    /\ length (Server.app s') = 6
    /\ ep_path <$> Server.app s' !! 1 = Some "/v1/openapi.json"
    /\ Server.listening s' = Some (binary_normalize 53 1024 3000 0 false).
Proof.
  destruct (start_installs_the_registry server startup server_started eq_refl)
    as (s' & ops & Hstart & Happ & Hops & _ & Hport & _).
  exists s'. split; [exact Hstart|]. split; [|split].
  - rewrite Happ, !length_app, <- (Forall2_length _ _ _ Hops). reflexivity.
  - rewrite Happ. reflexivity.
  - rewrite Hport. reflexivity.
Defined.

(** Started right after the start-up script, the server serves a document
    without paths. *)
Lemma start_serves_witness :
  exists s',
    Server.start (Server.with_router server_started (Server.create server)) = Ok s'
    /\ forall ep contentType doc,
         ep ∈ Server.app s' -> ep_handler ep = HSpec contentType doc ->
         paths doc = [] /\ info_title doc = "app".
Proof.
  destruct (start_serves_the_builder_document server startup server_started eq_refl)
    as [(s' & Hstart & Hdoc) _].
  exists s'. split; [exact Hstart|].
  intros ep contentType doc Hin Hep.
  exact (proj2 (Hdoc ep contentType doc Hin Hep)).
Defined.

End more_examples.
